(** * admix: replica diagnostics (showrun.py) and the deletion daemon
      (daemons/delete.py)

    A shallow embedding of the two decision procedures of the repository:

    - [Showrun]: the per-RSE analysis at the end of [showdataset]
      (showrun.py, "Step 2" and "Step 3"), which prints warnings when the
      run database and Rucio disagree about a dataset;
    - [Delete]: the methods of [DeleteDaemon] (daemons/delete.py):
      [build_rse_storage_dict], [find_priority], [find_single_copy] and
      [do_task];
    - [ShowrunRest]: the count of the copies and the comparison with the
      disks at the head of [showdataset], the whole of a call of
      [showdataset], and the loop of [showrun] over the runs and their
      data.

    Python values are modelled as follows: [int] as [Z], [str] as [string],
    [list] and one-dimensional numpy arrays as [list], [dict] keyed by
    strings as [gmap string _], a missing dictionary key as [None] in an
    [option] field, and a raised exception as the [Raise] branch of
    [result]. *)

From Stdlib Require Import ZArith Lia Ascii.
From stdpp Require Import base option list strings pretty gmap sorting.

(** ** Exceptions *)

Inductive exn :=
| KeyError (key : string)
| IndexError
| ValueError
| OverflowError
| NameError (name : string)
| NotImplementedError.

Inductive result (A : Type) :=
| Return (a : A)
| Raise (e : exn).
Arguments Return {A} a.
Arguments Raise {A} e.

Global Instance result_ret : MRet result := fun _ a => Return a.

Global Instance result_bind : MBind result := fun _ _ k r =>
  match r with
  | Return a => k a
  | Raise e => Raise e
  end.

(** ** The few [str] and [list] operations of Python that the code uses *)

Module Py.

(** [s.split(sep)] for a one-character separator: never empty. *)
Fixpoint split (sep : ascii) (s : string) : list string :=
  match s with
  | EmptyString => [EmptyString]
  | String c s' =>
      if Ascii.eqb c sep then EmptyString :: split sep s'
      else match split sep s' with
           | [] => [String c EmptyString]
           | p :: ps => String c p :: ps
           end
  end.

Fixpoint startswith (p s : string) : bool :=
  match p, s with
  | EmptyString, _ => true
  | String a p', String b s' => Ascii.eqb a b && startswith p' s'
  | String _ _, EmptyString => false
  end.

(** [p in s] for two strings: [p] occurs in [s] as a substring. *)
Fixpoint contains (p s : string) : bool :=
  startswith p s ||
  match s with
  | EmptyString => false
  | String _ s' => contains p s'
  end.

(** [x in l] for a list of strings. *)
Definition mem (x : string) (l : list string) : bool :=
  bool_decide (x ∈ l).

(** [l[i]] for [i >= 0]; out of range raises IndexError. *)
Definition index {A} (l : list A) (i : nat) : result A :=
  match l !! i with
  | Some a => Return a
  | None => Raise IndexError
  end.

(** [l[-1]]. *)
Definition index_last {A} (l : list A) : result A :=
  match last l with
  | Some a => Return a
  | None => Raise IndexError
  end.

(** [d[key]] for an optional field of a document. *)
Definition getitem {A} (key : string) (field : option A) : result A :=
  match field with
  | Some a => Return a
  | None => Raise (KeyError key)
  end.

End Py.

(** ** showrun.py: the analysis of one dataset over the RSEs *)

Module Showrun.

(** An entry of [run['data']]; only [type] and [host] are read
    unconditionally by [showdataset]. *)
Record Datum := {
  d_type : string;
  d_host : string;
  d_location : option string;
  d_did : option string;
  d_status : option string;
  d_file_count : option Z }.

Record Run := {
  number : Z;
  data : list Datum }.

(** The dictionary [rse] that Step 1 creates and Step 2 fills. *)
Record Rse := {
  name : string;
  DBentries : Z;
  DBStatus : string;
  RucioExists : bool;
  RucioNFiles : Z }.

(** The six warnings of the upload branch, in the order of the source
    (lines 336, 347, 356, 363, 370 and 377). The source numbers the fourth
    and the fifth of them both "Case 4" and the last one "Case 5"; the
    specification calls them patterns 1 to 4, the pattern that asks to
    mark the datum as transferred, and pattern 5. *)
Inductive Case :=
| RuleNotCreated
| DbAndRulesPending
| RulesAbroadPending
| UploadNeverStarted
| CopiesAbroad
| UploadInterrupted.

Global Instance Case_eq_dec : EqDecision Case.
Proof. solve_decision. Defined.

(** The commands printed as hints. *)
Inductive Command :=
| RucioAddRule (did rse : string)
| AdmixFixUploadDb (did : string)
| AdmixFixCreateUploadRules (did : string)
| AdmixFixSetEbStatus (did value : string)
| AdmixFixUpload (did : string).

(** What Step 3 prints for one RSE: a warning of the upload branch with
    its hints, or the generic warning with the whole [rse] dictionary. *)
Inductive Finding :=
| UploadWarning (c : Case) (hints : list Command)
| Inconsistent (did : string) (rse : Rse).

Definition all_cases : list Case :=
  [RuleNotCreated; DbAndRulesPending; RulesAbroadPending;
   UploadNeverStarted; CopiesAbroad; UploadInterrupted].

Definition hints (did rse_name : string) (c : Case) : list Command :=
  match c with
  | RuleNotCreated =>
      [RucioAddRule did rse_name; AdmixFixUploadDb did;
       AdmixFixCreateUploadRules did]
  | DbAndRulesPending => [AdmixFixUploadDb did; AdmixFixCreateUploadRules did]
  | RulesAbroadPending => [AdmixFixCreateUploadRules did]
  | UploadNeverStarted => [AdmixFixSetEbStatus did "eb_ready_to_upload"]
  | CopiesAbroad => [AdmixFixSetEbStatus did "transferred"]
  | UploadInterrupted => [AdmixFixUpload did]
  end.

Section Analysis.

(** Module constants read from the host configuration. *)
Variable UPLOAD_TO : string.
Variable RSES : list string.

(** [Nfiles] (lines 225-227). *)
Definition Nfiles_of (datum : Datum) : Z :=
  match d_file_count datum with
  | Some n => n
  | None => (-1)%Z
  end.

(** [ebstatus] (lines 234-236). *)
Definition ebstatus_of (datum : Datum) : string :=
  match d_status datum with
  | Some s => s
  | None => ""
  end.

(** The condition of each [if] of the upload branch. *)
Definition fires (Nfiles : Z) (ebstatus : string) (rses_with_data : list string)
    (rse : Rse) (c : Case) : bool :=
  match c with
  | RuleNotCreated =>
      (RucioNFiles rse =? Nfiles)%Z && negb (RucioExists rse)
      && String.eqb (DBStatus rse) "" && (DBentries rse =? 0)%Z
      && (length rses_with_data =? 0)%nat
  | DbAndRulesPending =>
      (RucioNFiles rse =? Nfiles)%Z && RucioExists rse
      && String.eqb (DBStatus rse) "" && (DBentries rse =? 0)%Z
      && (length rses_with_data =? 1)%nat
  | RulesAbroadPending =>
      (RucioNFiles rse =? Nfiles)%Z && RucioExists rse
      && String.eqb (DBStatus rse) "transferred" && (DBentries rse =? 1)%Z
      && (length rses_with_data =? 1)%nat
  | UploadNeverStarted =>
      (RucioNFiles rse =? 0)%Z && negb (RucioExists rse)
      && String.eqb (DBStatus rse) "" && (DBentries rse =? 0)%Z
      && (length rses_with_data =? 0)%nat
      && negb (Py.mem ebstatus [""; "transferred"])
  | CopiesAbroad =>
      (RucioNFiles rse =? Nfiles)%Z && RucioExists rse
      && String.eqb (DBStatus rse) "transferred" && (DBentries rse =? 1)%Z
      && (0 <? length rses_with_data)%nat
      && negb (Py.mem ebstatus [""; "transferred"])
  | UploadInterrupted =>
      negb (RucioNFiles rse =? Nfiles)%Z && RucioExists rse
      && String.eqb (DBStatus rse) "" && (DBentries rse =? 0)%Z
      && (length rses_with_data =? 1)%nat
      && String.eqb ebstatus "transferring"
  end.

(** The condition under which the [else] branch stays silent
    (lines 385-388, without the outer [not]). *)
Definition consistent (Nfiles : Z) (rse : Rse) : bool :=
  ((RucioNFiles rse =? Nfiles)%Z && RucioExists rse
   && (DBentries rse =? 1)%Z && String.eqb (DBStatus rse) "transferred")
  || ((RucioNFiles rse =? 0)%Z && negb (RucioExists rse)
      && (DBentries rse =? 0)%Z && negb (String.eqb (DBStatus rse) "transferred")).

(** The body of the loop of Step 3 for one [rse]: the six [if]s of the
    upload branch are independent statements, each printing when its
    condition holds. *)
Definition analyse (did : string) (Nfiles : Z) (ebstatus : string)
    (rses_with_data : list string) (rse : Rse) : list Finding :=
  if String.eqb (name rse) UPLOAD_TO then
    flat_map
      (fun c =>
         if fires Nfiles ebstatus rses_with_data rse c
         then [UploadWarning c (hints did (name rse) c)]
         else [])
      all_cases
  else
    if negb (consistent Nfiles rse) then [Inconsistent did rse] else [].

(** Step 2, the scan of [run['data']] for one RSE (lines 307-314),
    with the two counters threaded through the loop. *)
Fixpoint db_scan (did rse_name : string) (ds : list Datum)
    (entries : Z) (status : string) : result (Z * string) :=
  match ds with
  | [] => Return (entries, status)
  | d :: ds' =>
      if Py.contains "rucio" (d_host d) then
        d_did ← Py.getitem "did" (d_did d);
        if String.eqb d_did did then
          loc ← Py.getitem "location" (d_location d);
          if Py.contains rse_name loc then
            db_scan did rse_name ds' (entries + 1)%Z
              (match d_status d with Some s => s | None => status end)
          else db_scan did rse_name ds' entries status
        else db_scan did rse_name ds' entries status
      else db_scan did rse_name ds' entries status
  end.

Section Collaborators.

(** [utils.make_did], the Rucio clients and the type of the entries that
    [list_replicas] yields are external to the analysis. *)
Variable make_did : Z → string → string → string.
Variable list_did_rules : string → string → list string.
Variable GetRule : string → string → bool.
Variable Replica : Type.
Variable list_replicas : string → string → string → list Replica.

(** Step 2 for one RSE (lines 303-324). *)
Definition fill (run : Run) (did scope dname : string) (rse_name : string)
    : result Rse :=
  '(entries, status) ← db_scan did rse_name (data run) 0%Z "";
  Return {| name := rse_name;
            DBentries := entries;
            DBStatus := status;
            RucioExists := GetRule did rse_name;
            RucioNFiles := Z.of_nat (length (list_replicas scope dname rse_name)) |}.

Fixpoint fill_all (run : Run) (did scope dname : string) (names : list string)
    : result (list Rse) :=
  match names with
  | [] => Return []
  | n :: names' =>
      r ← fill run did scope dname n;
      rs ← fill_all run did scope dname names';
      Return (r :: rs)
  end.

(** [showdataset] without its lines 242-279: the test of the location,
    the dataset name, [Nfiles], [ebstatus] (lines 206-236), the rules
    known to Rucio (lines 282-289) and Steps 1 to 3 (lines 293-390), with
    the warnings of Step 3 as the result. Lines 242-279, the count of the
    copies and the comparison with the disks of the event builder, print
    warnings of their own and can raise before line 282 is reached; they
    do not enter Steps 1 to 3, and [ShowrunRest.showdataset_whole] runs
    them in their place. *)
Definition showdataset (run : Run) (datum : Datum) : result (list Finding) :=
  match d_location datum with
  | None => Return []
  | Some location =>
      hash ← Py.index_last (Py.split "-" location);
      let did := make_did (number run) (d_type datum) hash in
      let Nfiles := Nfiles_of datum in
      let ebstatus := ebstatus_of datum in
      scope ← Py.index (Py.split ":" did) 0;
      dname ← Py.index (Py.split ":" did) 1;
      let rses_with_data := list_did_rules scope dname in
      rses ← fill_all run did scope dname RSES;
      Return (flat_map (analyse did Nfiles ebstatus rses_with_data) rses)
  end.

End Collaborators.
End Analysis.
End Showrun.

(** ** daemons/delete.py: the deletion daemon *)

Module Delete.

(** *** numpy on one-dimensional arrays *)

(** [np.unique(a)]: the sorted distinct elements. *)
Definition np_unique (a : list string) : list string :=
  merge_sort String.le (remove_dups a).

(** [np.append(a, x)] returns a new array and leaves [a] as it is. *)
Definition np_append (a : list string) (x : string) : list string :=
  a ++ [x].

(** [a[mask]] for a boolean mask: the shapes must agree. *)
Fixpoint mask_select {A} (a : list A) (mask : list bool) : result (list A) :=
  match a, mask with
  | [], [] => Return []
  | x :: a', b :: mask' =>
      rest ← mask_select a' mask';
      Return (if b then x :: rest else rest)
  | _, _ => Raise IndexError
  end.

(** The value that a float64 cell holds after [cell = n] for a Python
    [int] [n]: [n] itself below 2^53 in magnitude, otherwise [n] rounded
    to 53 significant bits, to nearest and to even on a tie; an [int] that
    rounds to 2^1024 or more cannot be stored. [np.zeros] creates float64
    cells, and [remaining_storage] of [find_priority] is such an array. *)
Definition float64_of_int (n : Z) : result Z :=
  let a := Z.abs n in
  if (a <? 2 ^ 53)%Z then Return n
  else
    let e := (Z.log2 a - 52)%Z in
    let q := (a / 2 ^ e)%Z in
    let r := (a mod 2 ^ e)%Z in
    let half := (2 ^ (e - 1))%Z in
    let q' := if (half <? r)%Z || ((r =? half)%Z && Z.odd q)
              then (q + 1)%Z else q in
    let v := (q' * 2 ^ e)%Z in
    if (2 ^ 1024 <=? v)%Z then Raise OverflowError
    else Return (Z.sgn n * v)%Z.

(** [np.argmax(a)]: the first index of the maximum; an empty array
    raises ValueError. *)
Fixpoint argmax_from (best_i : nat) (best : Z) (i : nat) (a : list Z) : nat :=
  match a with
  | [] => best_i
  | x :: a' =>
      if (best <? x)%Z then argmax_from i x (S i) a'
      else argmax_from best_i best (S i) a'
  end.

Definition np_argmax (a : list Z) : result nat :=
  match a with
  | [] => Raise ValueError
  | x :: a' => Return (argmax_from 0 x 1 a')
  end.

(** *** The daemon and the world it runs in *)

(** The attributes of a [DeleteDaemon]. [rse_dict] is created by
    [build_rse_storage_dict], which [find_priority] calls before it reads
    the attribute; it holds the integer that [int(bytes_remaining)]
    yields. The database handle [collection] is a parameter of the
    methods below. *)
Record DeleteDaemon := {
  tagged_on_rse : list string;
  tagged_dids : list string;
  to_delete_on_rse : list string;
  to_delete_dids : list string;
  rse_dict : gmap string Z }.

(** [__init__]. *)
Definition init : DeleteDaemon :=
  {| tagged_on_rse := [];
     tagged_dids := [];
     to_delete_on_rse := [];
     to_delete_dids := [];
     rse_dict := ∅ |}.

(** What a run of the daemon does to the outside, in order. *)
Inductive event :=
| Stdout (format : string) (args : list string)
| Enter (method : string)
| DbCount
| DbFind (i : nat)
| RucioListRses
| RucioGetAccountUsage (rse : string)
| RucioGetSizeMb (did : string)
| RucioDeleteRule (did rse : string).

Record world := {
  self : DeleteDaemon;
  trace : list event }.

(** Statements: they read and change the daemon, append to the trace and
    end normally or by an exception; what was done before an exception
    stays done. *)
Definition M (A : Type) : Type := world → result A * world.

Global Instance M_ret : MRet M := fun _ a w => (Return a, w).

Global Instance M_bind : MBind M := fun _ _ k m w =>
  match m w with
  | (Return a, w') => k a w'
  | (Raise e, w') => (Raise e, w')
  end.

Definition raise {A} (e : exn) : M A := fun w => (Raise e, w).

Definition lift {A} (r : result A) : M A := fun w => (r, w).

Definition get_self : M DeleteDaemon := fun w => (Return (self w), w).

Definition set_self (s : DeleteDaemon) : M unit := fun w =>
  (Return tt, {| self := s; trace := trace w |}).

Definition emit (ev : event) : M unit := fun w =>
  (Return tt, {| self := self w; trace := trace w ++ [ev] |}).

(** An expression statement: the value is computed and dropped. *)
Definition expr_stmt {A} (value : A) : M unit := mret tt.

(** [try: body / except: pass]. *)
Definition try_except_pass (body : M unit) : M unit := fun w =>
  match body w with
  | (Return tt, w') => (Return tt, w')
  | (Raise _, w') => (Return tt, w')
  end.

(** [for x in l: body]. *)
Fixpoint for_each {A} (l : list A) (body : A → M unit) : M unit :=
  match l with
  | [] => mret tt
  | x :: l' => _ ← body x; for_each l' body
  end.

(** *** Name resolution in the module *)

(** The names that the module binds at its top level, and the built-in
    names that it uses. *)
Definition module_globals : list string :=
  ["pymongo"; "tqdm"; "xent_collection"; "utils"; "rucio"; "np";
   "DeleteDaemon"].

Definition builtins_used : list string :=
  ["print"; "len"; "range"; "int"; "enumerate"; "NotImplementedError"].

(** Reading a name that the enclosing function never assigns: the module
    globals, then the built-ins, else NameError. *)
Definition load_global (name : string) : M unit :=
  if Py.mem name module_globals || Py.mem name builtins_used
  then mret tt
  else raise (NameError name).

(** *** Collaborators *)

(** An entry of [cursor['data']] as [find_single_copy] reads it. *)
Record Datum := {
  did : option string;
  location : option string }.

Record RunDoc := {
  data : option (list Datum) }.

(** [self.collection]: the answer to [count(query)] and to
    [find(query)[i]] ([None]: no such document, IndexError). *)
Record Collection := {
  count : nat;
  find : nat → option RunDoc }.

(** The [rucio] module: the names of [list_rses()], the integer value of
    [get_account_usage(rse)['bytes_remaining']], and [get_size_mb]. *)
Record Rucio := {
  list_rses : list string;
  bytes_remaining : string → Z;
  get_size_mb : string → Z }.

Section Daemon.

Variable collection : Collection.
Variable rucio : Rucio.
(** [utils.RAW_DTYPES]. *)
Variable RAW_DTYPES : list string.

(** *** build_rse_storage_dict *)

(** Lines 25-29, with the local [rse_dict] threaded through the loop. *)
Fixpoint storage_loop (rse_list : list string) (rse_dict : gmap string Z)
    : M (gmap string Z) :=
  match rse_list with
  | [] => mret rse_dict
  | rse_name :: rse_list' =>
      _ ← emit (RucioGetAccountUsage rse_name);
      storage_loop rse_list' (<[rse_name := bytes_remaining rucio rse_name]> rse_dict)
  end.

Definition build_rse_storage_dict : M unit :=
  _ ← emit (Enter "build_rse_storage_dict");
  _ ← emit RucioListRses;
  rse_dict ← storage_loop (list_rses rucio) ∅;
  s ← get_self;
  set_self {| tagged_on_rse := tagged_on_rse s;
              tagged_dids := tagged_dids s;
              to_delete_on_rse := to_delete_on_rse s;
              to_delete_dids := to_delete_dids s;
              rse_dict := rse_dict |}.

(** *** find_priority *)

(** Lines 49-54: the float64 array of the remaining storage of [rses]. *)
Fixpoint remaining_storage (rse_dict : gmap string Z) (rses : list string)
    : result (list Z) :=
  match rses with
  | [] => Return []
  | rse :: rses' =>
      bytes ← Py.getitem rse (rse_dict !! rse);
      cell ← float64_of_int bytes;
      cells ← remaining_storage rse_dict rses';
      Return (cell :: cells)
  end.

(** Line 56. *)
Definition max_rse_of (rse_dict : gmap string Z) (rses : list string)
    : result string :=
  storage ← remaining_storage rse_dict rses;
  i ← np_argmax storage;
  Py.index rses i.

(** Lines 47-61, the body of the loop for one did: the pairs appended to
    the two local lists. *)
Definition mark_rest (s : DeleteDaemon) (d : string)
    : result (list string * list string) :=
  rses ← mask_select (tagged_on_rse s) (String.eqb d <$> tagged_dids s);
  max_rse ← max_rse_of (rse_dict s) rses;
  let rest := filter (fun rse => rse ≠ max_rse) rses in
  Return (replicate (length rest) d, rest).

(** Lines 46-61. *)
Fixpoint priority_loop (s : DeleteDaemon) (ds : list string)
    (to_delete_dids to_delete_on_rse : list string)
    : result (list string * list string) :=
  match ds with
  | [] => Return (to_delete_dids, to_delete_on_rse)
  | d :: ds' =>
      '(dids, rses) ← mark_rest s d;
      priority_loop s ds' (to_delete_dids ++ dids) (to_delete_on_rse ++ rses)
  end.

Definition find_priority : M unit :=
  _ ← emit (Enter "find_priority");
  s0 ← get_self;
  let unique_tagged_dids := np_unique (tagged_dids s0) in
  _ ← build_rse_storage_dict;
  s ← get_self;
  '(dids, rses) ← lift (priority_loop s unique_tagged_dids [] []);
  set_self {| tagged_on_rse := tagged_on_rse s;
              tagged_dids := tagged_dids s;
              to_delete_on_rse := rses;
              to_delete_dids := dids;
              rse_dict := rse_dict s |}.

(** *** find_single_copy *)

(** [if d.get('did'):] holds for a string that is present and not empty. *)
Definition truthy (field : option string) : bool :=
  match field with
  | Some v => negb (String.eqb v "")
  | None => false
  end.

(** Lines 97-98 and 102-103: two expression statements. *)
Definition append_tagged (d_did d_location : string) : M unit :=
  s ← get_self;
  _ ← expr_stmt (np_append (tagged_dids s) d_did);
  s ← get_self;
  expr_stmt (np_append (tagged_on_rse s) d_location).

(** Lines 89-108, the body of the inner loop for one entry [d]. *)
Definition tag_datum (raw_type_only : bool) (exclude_rses : list string)
    (d : Datum) : M unit :=
  if truthy (did d) then
    try_except_pass (
      d_did ← lift (Py.getitem "did" (did d));
      after_colon ← lift (Py.index (Py.split ":" d_did) 1);
      dtype ← lift (Py.index (Py.split "-" after_colon) 0);
      if raw_type_only then
        if Py.mem dtype RAW_DTYPES then
          d_location ← lift (Py.getitem "location" (location d));
          if negb (Py.mem d_location exclude_rses)
          then append_tagged d_did d_location
          else mret tt
        else mret tt
      else
        d_location ← lift (Py.getitem "location" (location d));
        if negb (Py.mem d_location exclude_rses)
        then append_tagged d_did d_location
        else mret tt)
  else mret tt.

(** Lines 85-108, the body of the outer loop for the run of index [i]. *)
Definition tag_run (raw_type_only : bool) (exclude_rses : list string)
    (i : nat) : M unit :=
  _ ← emit (DbFind i);
  cursor ← lift (match find collection i with
                 | Some doc => Return doc
                 | None => Raise IndexError
                 end);
  entries ← lift (Py.getitem "data" (data cursor));
  for_each entries (tag_datum raw_type_only exclude_rses).

(** Lines 84-108. *)
Definition tagging_loop (raw_type_only : bool) (exclude_rses : list string)
    (n_tagged : nat) : M unit :=
  for_each (seq 0 n_tagged) (tag_run raw_type_only exclude_rses).

(** Lines 79-81. *)
Definition announce : M unit :=
  _ ← emit DbCount;
  emit (Stdout "Searching for single copy tags among %s tagged runs..."
              [pretty (count collection)]).

(** Line 110 formats [len(tagged_dids)]: the name is read before anything
    is printed. *)
Definition report : M unit :=
  _ ← load_global "tagged_dids";
  emit (Stdout "Found %s runs to delete" []).

Definition find_single_copy (raw_type_only : bool) (exclude_rses : list string)
    : M unit :=
  _ ← emit (Enter "find_single_copy");
  _ ← announce;
  _ ← tagging_loop raw_type_only exclude_rses (count collection);
  report.

(** *** do_task *)

(** [int(n / 1024)] for a Python [int] [n] (line 122). The division is
    the true division, which yields the float64 nearest to the quotient,
    to even on a tie, and raises OverflowError when that float would be
    2^1024 or more; [int] then drops the fraction. Dividing by 1024 only
    moves the exponent, so the quotient is [n] rounded to 53 significant
    bits, over 1024; below 2^53 in magnitude nothing is rounded. *)
Definition int_of_quotient_by_1024 (n : Z) : result Z :=
  let a := Z.abs n in
  if (a <? 2 ^ 53)%Z then Return (n ÷ 1024)%Z
  else
    let e := (Z.log2 a - 52)%Z in
    let q := (a / 2 ^ e)%Z in
    let r := (a mod 2 ^ e)%Z in
    let half := (2 ^ (e - 1))%Z in
    let q' := if (half <? r)%Z || ((r =? half)%Z && Z.odd q)
              then (q + 1)%Z else q in
    let v := (q' * 2 ^ e)%Z in
    if (2 ^ 1034 <=? v)%Z then Raise OverflowError
    else Return (Z.sgn n * (v / 1024))%Z.

(** Lines 120-125, the body of the deletion loop for index [i];
    [get_size_mb] of the model is the value of
    [int(rucio.get_size_mb(did=did))]. *)
Definition delete_one (i : nat) : M unit :=
  s ← get_self;
  d ← lift (Py.index (to_delete_dids s) i);
  rse ← lift (Py.index (to_delete_on_rse s) i);
  _ ← emit (RucioGetSizeMb d);
  to_delete_size_gb ← lift (int_of_quotient_by_1024 (get_size_mb rucio d));
  _ ← emit (Stdout "Deleting %s from %s, which takes %s GB."
                  [d; rse; pretty to_delete_size_gb]);
  _ ← emit (RucioDeleteRule d rse);
  emit (Stdout "Deleted %s from %s. " [d; rse]).

Definition do_task (mode : string) (raw_type_only : bool)
    (exclude_rses : list string) : M unit :=
  if String.eqb mode "single_copy" then
    _ ← emit (Stdout "Going to delete rawtype data with single_copy tags." []);
    _ ← find_single_copy raw_type_only exclude_rses;
    _ ← find_priority;
    s ← get_self;
    for_each (seq 0 (length (to_delete_dids s))) delete_one
  else raise NotImplementedError.

End Daemon.

(** The world in which a freshly constructed daemon starts. *)
Definition fresh : world := {| self := init; trace := [] |}.

End Delete.

(** ** showrun.py: the head of [showdataset] and the loop of [showrun] *)

Module ShowrunRest.
Import Showrun.

(** Lines 214 and 219: the hash of the dataset and the event builder
    that treated it. *)
Definition hash_of (location : string) : result string :=
  Py.index_last (Py.split "-" location).

Definition eb_of (host : string) : result string :=
  Py.index (Py.split "." host) 0.

(** Lines 244-246, with the counter threaded through the loop. *)
Fixpoint count_copies (dtype eb hash : string) (ds : list Datum) (Copies : Z)
    : result Z :=
  match ds with
  | [] => Return Copies
  | d :: ds' =>
      if String.eqb (d_type d) dtype && Py.contains eb (d_host d) then
        d_location ← Py.getitem "location" (d_location d);
        if Py.contains hash d_location
        then count_copies dtype eb hash ds' (Copies + 1)%Z
        else count_copies dtype eb hash ds' Copies
      else count_copies dtype eb hash ds' Copies
  end.


(** A run document as the loop of [showrun] reads it: the fields that
    [showdataset] reads, the deleted data, the host of the [bootstrax]
    field and the comments. The fields [start] and [end] hold dates, as
    the run database stores them, and are only printed. *)
Record Comment := {
  user : option string;
  comment : option string }.

Record Bootstrax := {
  host : option string }.

Record RunDoc := {
  run : Run;
  deleted_data : option (list Datum);
  bootstrax : option Bootstrax;
  comments : option (list Comment) }.

Section Loop.

(** [showdataset] with its collaborators. *)
Variable show : Run → Datum → result (list Finding).
Variable arg_dtypes : list string.
Variables arg_compact arg_status arg_pending : bool.

(** Lines 129-139: the local variable [eb] after the block; [None] is
    the variable not being bound yet. *)
Definition event_builder (eb : option string) (r : RunDoc)
    : result (option string) :=
  match bootstrax r with
  | Some b =>
      h ← Py.getitem "host" (host b);
      e ← eb_of h;
      Return (Some e)
  | None => Return eb
  end.

(** Lines 165-168. *)
Definition latest_comment (r : RunDoc) : result unit :=
  match comments r with
  | Some cs =>
      match last cs with
      | Some last_comment =>
          _ ← Py.getitem "user" (user last_comment);
          _ ← Py.getitem "comment" (comment last_comment);
          Return tt
      | None => Return tt
      end
  | None => Return tt
  end.

(** Lines 183-197. Reading [eb] while it is not bound raises
    UnboundLocalError, which is a NameError. *)
Fixpoint datum_loop (eb : option string) (r : Run) (alldata : list Datum)
    : result (list Finding) :=
  match alldata with
  | [] => Return []
  | datum :: alldata' =>
      if arg_pending && Py.mem (ebstatus_of datum) [""; "transferred"]
      then datum_loop eb r alldata'
      else if (0 <? length arg_dtypes)%nat
              && negb (Py.mem (d_type datum) arg_dtypes)
      then datum_loop eb r alldata'
      else
        eb_name ← match eb with
                  | Some e => Return e
                  | None => Raise (NameError "eb")
                  end;
        if Py.contains eb_name (d_host datum) then
          findings ← show r datum;
          rest ← datum_loop eb r alldata';
          Return (findings ++ rest)
        else datum_loop eb r alldata'
  end.

(** Lines 112-197, the body of the loop for one run: the local [eb]
    afterwards and what [showdataset] has printed. *)
Definition run_body (eb : option string) (r : RunDoc)
    : result (option string * list Finding) :=
  if arg_status then Return (eb, [])
  else
    eb' ← event_builder eb r;
    _ ← latest_comment r;
    if arg_compact then Return (eb', [])
    else
      let alldata := match deleted_data r with
                     | Some deleted => data (run r) ++ deleted
                     | None => data (run r)
                     end in
      findings ← datum_loop eb' (run r) alldata;
      Return (eb', findings).

(** Lines 110-197. *)
Fixpoint run_loop (eb : option string) (cursor : list RunDoc)
    : result (list Finding) :=
  match cursor with
  | [] => Return []
  | r :: cursor' =>
      '(eb', findings) ← run_body eb r;
      rest ← run_loop eb' cursor';
      Return (findings ++ rest)
  end.

End Loop.

(** What lines 242-279 print. *)
Inductive HeadWarning :=
| DoubleEntry (did : string)
| FilesMismatch (did : string) (on_disk in_db : Z)
| FilesStillOnDisk (did : string) (on_disk : Z)
| DisksUnavailable.

Section Whole.

Variable UPLOAD_TO : string.
Variable RSES : list string.
Variable make_did : Z → string → string → string.
Variable list_did_rules : string → string → list string.
Variable GetRule : string → string → bool.
Variable Replica : Type.
Variable list_replicas : string → string → string → list Replica.

(** [socket.getfqdn() == HOSTNAME]. *)
Variable on_datamanager : bool.

(** The directory [os.path.join(DATADIR, eb, directory)]: [None] when
    it does not exist, else the number of files that [os.walk] lists in
    it. The file system answers, as Rucio does: a path that exists is a
    directory that can be read. *)
Variable files_in : string → string → option nat.

(** [==] on two documents; it compares all their fields, also those
    that the record [Datum] leaves out. *)
Variable same_document : Datum → Datum → bool.

(** [datum in l]. *)
Definition contains_document (datum : Datum) (l : list Datum) : bool :=
  existsb (same_document datum) l.

(** Lines 258-279. *)
Definition disk_check (r : RunDoc) (datum : Datum) (did eb directory : string)
    : result (list HeadWarning) :=
  if on_datamanager then
    let Nfiles_disk := match files_in eb directory with
                       | Some n => Z.of_nat n
                       | None => 0%Z
                       end in
    if contains_document datum (data (run r)) then
      Return (if negb (Nfiles_disk =? Nfiles_of datum)%Z
              then [FilesMismatch did Nfiles_disk (Nfiles_of datum)]
              else [])
    else
      deleted ← Py.getitem "deleted_data" (deleted_data r);
      if contains_document datum deleted then
        Return (if (0 <? Nfiles_disk)%Z
                then [FilesStillOnDisk did Nfiles_disk]
                else [])
      else Return []
  else Return [DisksUnavailable].

(** A call of [showdataset] from its first line to its last: the
    warnings of lines 242-279 and the warnings of Step 3. *)
Definition showdataset_whole (r : RunDoc) (datum : Datum)
    : result (list HeadWarning * list Finding) :=
  match d_location datum with
  | None => Return ([], [])
  | Some location =>
      hash ← hash_of location;
      let did := make_did (number (run r)) (d_type datum) hash in
      eb ← eb_of (d_host datum);
      directory ← Py.index_last (Py.split "/" location);
      Copies ← count_copies (d_type datum) eb hash (data (run r)) 0%Z;
      let double := if (1 <? Copies)%Z then [DoubleEntry did] else [] in
      disk ← disk_check r datum did eb directory;
      findings ← showdataset UPLOAD_TO RSES make_did list_did_rules GetRule
                   Replica list_replicas (run r) datum;
      Return (double ++ disk, findings)
  end.

End Whole.
End ShowrunRest.

(** * Vocabulary of the statements *)

(** ** showrun.py *)


(** The event-builder states in which nothing is pending. *)
Definition eb_settled (ebstatus : string) : Prop :=
  ebstatus = "" ∨ ebstatus = "transferred".

Global Instance eb_settled_dec ebstatus : Decision (eb_settled ebstatus).
Proof. unfold eb_settled. apply _. Defined.

(** The silent states of an RSE other than the upload one. *)
Definition healthy (Nfiles : Z) (rse : Showrun.Rse) : Prop :=
  (Showrun.RucioNFiles rse = Nfiles ∧ Showrun.RucioExists rse = true
   ∧ Showrun.DBentries rse = 1%Z ∧ Showrun.DBStatus rse = "transferred")
  ∨ (Showrun.RucioNFiles rse = 0%Z ∧ Showrun.RucioExists rse = false
     ∧ Showrun.DBentries rse = 0%Z ∧ Showrun.DBStatus rse ≠ "transferred").

(** ** daemons/delete.py *)

(** The events of [find_single_copy]. *)
Definition scan_event (ev : Delete.event) : Prop :=
  match ev with
  | Delete.Stdout _ _ | Delete.DbCount | Delete.DbFind _ => True
  | Delete.Enter method => method = "find_single_copy"
  | _ => False
  end.

(** A statement that leaves the daemon as it is and only adds events of
    the scan to the trace. *)
Definition only_scans {A} (m : Delete.M A) : Prop :=
  ∀ w, ∃ evs,
    (m w).2 = {| Delete.self := Delete.self w;
                 Delete.trace := Delete.trace w ++ evs |}
    ∧ Forall scan_event evs.

(** The world in which the loop of [find_single_copy] starts. *)
Definition at_loop_entry (collection : Delete.Collection) (w : Delete.world)
    : Delete.world :=
  (Delete.announce collection (Delete.emit (Delete.Enter "find_single_copy") w).2).2.

(** The entries of [rses] at the positions where [dids] holds [d]. *)
Fixpoint paired_with (d : string) (dids rses : list string) : list string :=
  match dids, rses with
  | d' :: dids', rse :: rses' =>
      if String.eqb d d' then rse :: paired_with d dids' rses'
      else paired_with d dids' rses'
  | _, _ => []
  end.

(** The RSEs on which the daemon has tagged [d], and those on which it
    has marked [d] for deletion. *)
Definition locations (s : Delete.DeleteDaemon) (d : string) : list string :=
  paired_with d (Delete.tagged_dids s) (Delete.tagged_on_rse s).

Definition marked (s : Delete.DeleteDaemon) (d : string) : list string :=
  paired_with d (Delete.to_delete_dids s) (Delete.to_delete_on_rse s).

(** The dictionary that [build_rse_storage_dict] builds. *)
Definition storage_dict (rucio : Delete.Rucio) : gmap string Z :=
  foldl (fun m rse_name => <[rse_name := Delete.bytes_remaining rucio rse_name]> m)
        ∅ (Delete.list_rses rucio).

(** The float64 that ranks [rse]. *)
Definition stored (rse_dict : gmap string Z) (rse : string) : result Z :=
  bytes ← Py.getitem rse (rse_dict !! rse);
  Delete.float64_of_int bytes.

(** An integer that a float64 cell can hold, and one that it holds as
    it is. *)
Definition storable (n : Z) : Prop := ∃ v, Delete.float64_of_int n = Return v.

Definition exact (n : Z) : Prop := Delete.float64_of_int n = Return n.

(** The daemon with the storage dictionary replaced. *)
Definition with_rse_dict (s : Delete.DeleteDaemon) (m : gmap string Z)
    : Delete.DeleteDaemon :=
  {| Delete.tagged_on_rse := Delete.tagged_on_rse s;
     Delete.tagged_dids := Delete.tagged_dids s;
     Delete.to_delete_on_rse := Delete.to_delete_on_rse s;
     Delete.to_delete_dids := Delete.to_delete_dids s;
     Delete.rse_dict := m |}.

(** The RSEs that the loop of [find_priority] marks for [d], once the
    loop gets through the pass for [d]. *)
Definition rest_of (s : Delete.DeleteDaemon) (d : string) : list string :=
  match Delete.max_rse_of (Delete.rse_dict s) (locations s d) with
  | Return max_rse => filter (fun rse => rse ≠ max_rse) (locations s d)
  | Raise _ => []
  end.

(** The events of [find_priority]. *)
Definition priority_events (rucio : Delete.Rucio) : list Delete.event :=
  [Delete.Enter "find_priority"; Delete.Enter "build_rse_storage_dict";
   Delete.RucioListRses]
  ++ (Delete.RucioGetAccountUsage <$> Delete.list_rses rucio).

(** ** Inputs of the examples *)

Definition did_7330 : string := "xnt_007330:raw_records-rfzvpzj4mf".
Definition did_7331 : string := "xnt_007331:raw_records-abcdefghij".

(** A daemon that holds the given tagged pairs, in a world without
    events. *)
Definition tagged (dids rses : list string) : Delete.world :=
  {| Delete.self :=
       {| Delete.tagged_on_rse := rses;
          Delete.tagged_dids := dids;
          Delete.to_delete_on_rse := [];
          Delete.to_delete_dids := [];
          Delete.rse_dict := ∅ |};
     Delete.trace := [] |}.

(** A Rucio with the given RSEs and remaining bytes. *)
Definition rucio_with (usage : list (string * Z)) : Delete.Rucio :=
  {| Delete.list_rses := usage.*1;
     Delete.bytes_remaining := fun rse =>
       match list_find (fun p => p.1 = rse) usage with
       | Some (_, p) => p.2
       | None => 0%Z
       end;
     Delete.get_size_mb := fun _ => 2048%Z |}.

(** A database with one tagged run: two copies of its raw records and
    an entry without did. *)
Definition tagged_db : Delete.Collection :=
  {| Delete.count := 1;
     Delete.find := fun i =>
       match i with
       | 0 => Some {| Delete.data := Some
                 [ {| Delete.did := Some did_7330;
                      Delete.location := Some "UC_OSG_USERDISK" |};
                   {| Delete.did := Some did_7330;
                      Delete.location := Some "NIKHEF2_USERDISK" |};
                   {| Delete.did := None;
                      Delete.location := Some "UC_OSG_USERDISK" |} ] |}
       | S _ => None
       end |}.

(** A run whose raw data wait on the event builder with a status that
    blocks the upload, and a Rucio that knows nothing about them. *)
Definition waiting_datum : Showrun.Datum :=
  {| Showrun.d_type := "raw_records";
     Showrun.d_host := "eb3.xenon.local";
     Showrun.d_location := Some "/data/xenonnt/007330-raw_records-rfzvpzj4mf";
     Showrun.d_did := None;
     Showrun.d_status := Some "transferring";
     Showrun.d_file_count := None |}.

Definition waiting_run : Showrun.Run :=
  {| Showrun.number := 7330; Showrun.data := [waiting_datum] |}.

Definition make_did_7330 (number : Z) (dtype hash : string) : string :=
  "xnt_007330:" +:+ dtype +:+ "-" +:+ hash.

(** ** The rest of [do_task] *)

(** Lines 119-125: the loop that deletes the marked replicas one by
    one. *)
Definition deletion_loop (rucio : Delete.Rucio) : Delete.M unit :=
  s ← Delete.get_self;
  Delete.for_each (seq 0 (length (Delete.to_delete_dids s)))
    (Delete.delete_one rucio).

(** The size of a did in GB, as line 122 computes it, and a did for
    which that computation does not overflow. *)
Definition size_gb (rucio : Delete.Rucio) (d : string) : result Z :=
  Delete.int_of_quotient_by_1024 (Delete.get_size_mb rucio d).

Definition fits (rucio : Delete.Rucio) (d : string) : Prop :=
  ∃ gb, size_gb rucio d = Return gb.

(** What the loop does for one marked replica: the four events of a
    deletion, or the query of the size alone when the size overflows. *)
Definition deletion_events (rucio : Delete.Rucio) (p : string * string)
    : list Delete.event :=
  match size_gb rucio p.1 with
  | Return gb =>
      [Delete.RucioGetSizeMb p.1;
       Delete.Stdout "Deleting %s from %s, which takes %s GB."
         [p.1; p.2; pretty gb];
       Delete.RucioDeleteRule p.1 p.2;
       Delete.Stdout "Deleted %s from %s. " [p.1; p.2]]
  | Raise _ => [Delete.RucioGetSizeMb p.1]
  end.

(** The loop over two arrays, by recursion on the arrays: how it ends
    and the events that it adds. *)
Fixpoint deletion_outcome (rucio : Delete.Rucio) (dids rses : list string)
    : result unit * list Delete.event :=
  match dids, rses with
  | [], _ => (Return tt, [])
  | _ :: _, [] => (Raise IndexError, [])
  | d :: dids', rse :: rses' =>
      match size_gb rucio d with
      | Return _ =>
          let '(res, evs) := deletion_outcome rucio dids' rses' in
          (res, deletion_events rucio (d, rse) ++ evs)
      | Raise e => (Raise e, deletion_events rucio (d, rse))
      end
  end.

(** The calls of [delete_rule] in a trace, in order. *)
Definition deleted (t : list Delete.event) : list (string * string) :=
  omap (fun ev => match ev with
                  | Delete.RucioDeleteRule d rse => Some (d, rse)
                  | _ => None
                  end) t.

(** A run document that the scan can read: it exists and has the field
    [data]. *)
Definition readable (collection : Delete.Collection) (i : nat) : Prop :=
  ∃ doc entries, Delete.find collection i = Some doc
                 ∧ Delete.data doc = Some entries.

(** A statement that leaves the world as it is. *)
Definition silent {A} (m : Delete.M A) : Prop := ∀ w, (m w).2 = w.

(** ** The rest of showrun.py *)

(** An entry that has the type, the host and the location of [datum]. *)
Definition agrees_with (datum d : Showrun.Datum) : Prop :=
  Showrun.d_type d = Showrun.d_type datum
  ∧ Showrun.d_host d = Showrun.d_host datum
  ∧ Showrun.d_location d = Showrun.d_location datum.

Global Instance agrees_with_dec datum d : Decision (agrees_with datum d).
Proof. unfold agrees_with. apply _. Defined.

(** An entry of the run document that Rucio has written without a did. *)
Definition rucio_entry_without_did (d : Showrun.Datum) : Prop :=
  Py.contains "rucio" (Showrun.d_host d) = true ∧ Showrun.d_did d = None.

(** A datum that passes the filters of the status and of the type. *)
Definition passes_filters (arg_dtypes : list string) (arg_pending : bool)
    (datum : Showrun.Datum) : Prop :=
  (arg_pending = true → ¬ eb_settled (Showrun.ebstatus_of datum))
  ∧ (arg_dtypes ≠ [] → Showrun.d_type datum ∈ arg_dtypes).

(** ** Further inputs of the examples *)

(** The entry that Rucio writes for a copy on an RSE, with and without
    its did, and run documents that hold them. *)
Definition rucio_datum : Showrun.Datum :=
  {| Showrun.d_type := "raw_records";
     Showrun.d_host := "rucio-catalogue";
     Showrun.d_location := Some "UC_OSG_USERDISK";
     Showrun.d_did := Some "xnt_007330:raw_records-rfzvpzj4mf";
     Showrun.d_status := Some "transferred";
     Showrun.d_file_count := None |}.

Definition junk_datum : Showrun.Datum :=
  {| Showrun.d_type := "veto_regions";
     Showrun.d_host := "rucio-catalogue";
     Showrun.d_location := Some "UC_OSG_USERDISK";
     Showrun.d_did := None;
     Showrun.d_status := Some "transferred";
     Showrun.d_file_count := None |}.

Definition uploaded_run : Showrun.Run :=
  {| Showrun.number := 7330; Showrun.data := [waiting_datum; rucio_datum] |}.

Definition junk_run : Showrun.Run :=
  {| Showrun.number := 7330; Showrun.data := [waiting_datum; junk_datum] |}.


(** A run document without the field [bootstrax]. *)
Definition unprocessed_doc : ShowrunRest.RunDoc :=
  {| ShowrunRest.run := waiting_run;
     ShowrunRest.deleted_data := None;
     ShowrunRest.bootstrax := None;
     ShowrunRest.comments := None |}.

(** The same document with a last comment that has no [user]. *)
Definition anonymous_comment_doc : ShowrunRest.RunDoc :=
  {| ShowrunRest.run := waiting_run;
     ShowrunRest.deleted_data := None;
     ShowrunRest.bootstrax := None;
     ShowrunRest.comments :=
       Some [ {| ShowrunRest.user := None;
                 ShowrunRest.comment := Some "noisy" |} ] |}.

(** A run document whose data hold the entry of Rucio without a did. *)
Definition junk_doc : ShowrunRest.RunDoc :=
  {| ShowrunRest.run := junk_run;
     ShowrunRest.deleted_data := None;
     ShowrunRest.bootstrax := None;
     ShowrunRest.comments := None |}.

(** [==] on two documents that have no other field than those of the
    record. *)
Definition same_fields (a b : Showrun.Datum) : bool :=
  bool_decide (Showrun.d_type a = Showrun.d_type b
               ∧ Showrun.d_host a = Showrun.d_host b
               ∧ Showrun.d_location a = Showrun.d_location b
               ∧ Showrun.d_did a = Showrun.d_did b
               ∧ Showrun.d_status a = Showrun.d_status b
               ∧ Showrun.d_file_count a = Showrun.d_file_count b).

(** The data over which the loop of [showrun] runs for one document. *)
Definition alldata_of (r : ShowrunRest.RunDoc) : list Showrun.Datum :=
  match ShowrunRest.deleted_data r with
  | Some deleted => Showrun.data (ShowrunRest.run r) ++ deleted
  | None => Showrun.data (ShowrunRest.run r)
  end.

(** The data of a run that [showrun] hands to [showdataset] when the
    event builder of the run is [eb]. *)
Definition selected (arg_dtypes : list string) (arg_pending : bool)
    (eb : string) (datum : Showrun.Datum) : Prop :=
  (arg_pending = true → ¬ eb_settled (Showrun.ebstatus_of datum))
  ∧ (arg_dtypes ≠ [] → Showrun.d_type datum ∈ arg_dtypes)
  ∧ Py.contains eb (Showrun.d_host datum) = true.

Global Instance selected_dec arg_dtypes arg_pending eb datum :
  Decision (selected arg_dtypes arg_pending eb datum).
Proof. unfold selected. apply _. Defined.

(** [showdataset] called on each datum of a list in turn. *)
Fixpoint show_each (show : Showrun.Run → Showrun.Datum →
                            result (list Showrun.Finding))
    (r : Showrun.Run) (ds : list Showrun.Datum)
    : result (list Showrun.Finding) :=
  match ds with
  | [] => Return []
  | datum :: ds' =>
      findings ← show r datum;
      rest ← show_each show r ds';
      Return (findings ++ rest)
  end.

(** * Properties *)

(** ** Python helpers *)

Example split_did :
  Py.split ":" "xnt_007330:raw_records-rfzvpzj4mf"
  = ["xnt_007330"; "raw_records-rfzvpzj4mf"].
Proof. reflexivity. Qed.

Example split_without_separator : Py.split ":" "junk" = ["junk"].
Proof. reflexivity. Qed.

Example contains_rucio : Py.contains "rucio" "rucio-catalogue" = true.
Proof. reflexivity. Qed.

Lemma mem_settled ebstatus :
  Py.mem ebstatus [""; "transferred"] = bool_decide (eb_settled ebstatus).
Proof.
  unfold Py.mem, eb_settled. apply bool_decide_ext.
  rewrite !elem_of_cons, elem_of_nil. tauto.
Qed.

(** ** showrun.py *)

Section ShowrunFacts.
Import Showrun.

(** Reading the condition of each upload warning as a proposition. *)
Lemma fires_spec Nfiles ebstatus rwd rse c :
  fires Nfiles ebstatus rwd rse c = true ↔
  match c with
  | RuleNotCreated =>
      RucioNFiles rse = Nfiles ∧ RucioExists rse = false ∧ DBStatus rse = ""
      ∧ DBentries rse = 0%Z ∧ length rwd = 0
  | DbAndRulesPending =>
      RucioNFiles rse = Nfiles ∧ RucioExists rse = true ∧ DBStatus rse = ""
      ∧ DBentries rse = 0%Z ∧ length rwd = 1
  | RulesAbroadPending =>
      RucioNFiles rse = Nfiles ∧ RucioExists rse = true
      ∧ DBStatus rse = "transferred" ∧ DBentries rse = 1%Z ∧ length rwd = 1
  | UploadNeverStarted =>
      RucioNFiles rse = 0%Z ∧ RucioExists rse = false ∧ DBStatus rse = ""
      ∧ DBentries rse = 0%Z ∧ length rwd = 0 ∧ ¬ eb_settled ebstatus
  | CopiesAbroad =>
      RucioNFiles rse = Nfiles ∧ RucioExists rse = true
      ∧ DBStatus rse = "transferred" ∧ DBentries rse = 1%Z ∧ 0 < length rwd
      ∧ ¬ eb_settled ebstatus
  | UploadInterrupted =>
      RucioNFiles rse ≠ Nfiles ∧ RucioExists rse = true ∧ DBStatus rse = ""
      ∧ DBentries rse = 0%Z ∧ length rwd = 1 ∧ ebstatus = "transferring"
  end.
Proof.
  destruct c; simpl;
    rewrite ?mem_settled, ?andb_true_iff, ?negb_true_iff, ?bool_decide_eq_false,
      ?Z.eqb_eq, ?Z.eqb_neq, ?String.eqb_eq, ?Nat.eqb_eq, ?Nat.ltb_lt;
    tauto.
Qed.

Lemma consistent_spec Nfiles rse :
  consistent Nfiles rse = true ↔ healthy Nfiles rse.
Proof.
  unfold consistent, healthy.
  rewrite orb_true_iff, ?andb_true_iff, ?negb_true_iff,
    ?Z.eqb_eq, ?String.eqb_eq, String.eqb_neq.
  tauto.
Qed.




Lemma analyse_upload_elem did Nfiles ebstatus rwd rse f :
  f ∈ analyse (name rse) did Nfiles ebstatus rwd rse ↔
  ∃ c, fires Nfiles ebstatus rwd rse c = true
       ∧ f = UploadWarning c (hints did (name rse) c).
Proof.
  unfold analyse. rewrite String.eqb_refl, list_elem_of_In, in_flat_map.
  split.
  - intros (c & _ & Hf). exists c.
    destruct (fires Nfiles ebstatus rwd rse c); simpl in Hf; [|done].
    destruct Hf as [<-|[]]. done.
  - intros (c & Hc & ->). exists c. rewrite Hc. split; [|by left].
    apply list_elem_of_In. destruct c; unfold all_cases; set_solver.
Qed.






(** C4. For an RSE other than the upload one, nothing is printed exactly
    when Rucio holds all the files under a rule and the database has one
    entry with status transferred, or Rucio holds nothing, has no rule,
    and the database has no entry and no transferred status; in every
    other state exactly one finding is printed, the generic one, and it
    carries the whole record. *)
Theorem C4_other_rse_silent_iff_healthy
    (UPLOAD_TO did : string) (Nfiles : Z) (ebstatus : string)
    (rses_with_data : list string) (rse : Rse) :
  name rse ≠ UPLOAD_TO →
  (analyse UPLOAD_TO did Nfiles ebstatus rses_with_data rse = []
   ↔ healthy Nfiles rse)
  ∧ (¬ healthy Nfiles rse →
     analyse UPLOAD_TO did Nfiles ebstatus rses_with_data rse
     = [Inconsistent did rse]).
Proof.
  intros Hname%String.eqb_neq. unfold analyse. rewrite Hname.
  rewrite <- consistent_spec.
  destruct (consistent Nfiles rse); simpl; split; try split; try done.
Qed.

(** Scenario 2 of the specification, through C4: a complete replica
    elsewhere is silent. *)
Lemma C4_other_rse_witness :
  analyse "LNGS_USERDISK" "xnt_007330:raw_records-rfzvpzj4mf" 5 "" []
    {| name := "UC_OSG_USERDISK"; DBentries := 1; DBStatus := "transferred";
       RucioExists := true; RucioNFiles := 5 |} = [].
Proof.
  refine (proj2 (proj1 (C4_other_rse_silent_iff_healthy
    "LNGS_USERDISK" "xnt_007330:raw_records-rfzvpzj4mf" 5 "" []
    {| name := "UC_OSG_USERDISK"; DBentries := 1; DBStatus := "transferred";
       RucioExists := true; RucioNFiles := 5 |} _)) _).
  - simpl. discriminate.
  - left. simpl. repeat split; reflexivity.
Defined.

(** Scenario 3 of the specification: a database entry without files or
    rule is reported. *)
Example other_rse_entry_without_files :
  let rse := {| name := "UC_OSG_USERDISK"; DBentries := 1;
                DBStatus := "transferred"; RucioExists := false;
                RucioNFiles := 0 |} in
  analyse "LNGS_USERDISK" "xnt_007330:raw_records-rfzvpzj4mf" 5 "" [] rse
  = [Inconsistent "xnt_007330:raw_records-rfzvpzj4mf" rse].
Proof. reflexivity. Qed.

(** C8, counterexample. When the two counts agree at zero and the
    event-builder status is pending, the warning of pattern 1 is followed
    by that of pattern 4. *)
Lemma C8_rule_not_created_not_alone :
  let did := "xnt_007330:raw_records-rfzvpzj4mf" in
  let lngs := "LNGS_USERDISK" in
  analyse lngs did 0 "eb_ready_to_upload" []
    {| name := lngs; DBentries := 0; DBStatus := "";
       RucioExists := false; RucioNFiles := 0 |}
  ≠ [UploadWarning RuleNotCreated
       [RucioAddRule did lngs; AdmixFixUploadDb did;
        AdmixFixCreateUploadRules did]].
Proof. discriminate. Qed.

(** C8, amended. At the upload RSE, with as many files in Rucio as
    expected, no rule, an empty database status, no database entry and no
    rule known to Rucio, the warning of pattern 1 is printed with its
    three hints, the first of which creates the rule; it is the only
    finding unless the count is zero and the event-builder status is
    pending, in which case the warning of pattern 4 follows it. *)
Theorem C8_rule_not_created
    (UPLOAD_TO did : string) (Nfiles : Z) (ebstatus : string) (rse : Rse) :
  name rse = UPLOAD_TO →
  RucioNFiles rse = Nfiles →
  RucioExists rse = false →
  DBStatus rse = "" →
  DBentries rse = 0%Z →
  let first := UploadWarning RuleNotCreated
                 [RucioAddRule did UPLOAD_TO; AdmixFixUploadDb did;
                  AdmixFixCreateUploadRules did] in
  analyse UPLOAD_TO did Nfiles ebstatus [] rse
  = if decide (Nfiles = 0%Z ∧ ¬ eb_settled ebstatus)
    then [first; UploadWarning UploadNeverStarted
                   [AdmixFixSetEbStatus did "eb_ready_to_upload"]]
    else [first].
Proof.
  intros <- HN Hex Hst Hdb. unfold analyse. rewrite String.eqb_refl.
  simpl. rewrite HN, Hex, Hst, Hdb, Z.eqb_refl, mem_settled. simpl.
  destruct (Z.eqb_spec Nfiles 0) as [->|Hn]; simpl.
  - destruct (decide (eb_settled ebstatus)) as [Hs|Hs].
    + rewrite bool_decide_eq_true_2 by done. simpl.
      rewrite decide_False by tauto. done.
    + rewrite bool_decide_eq_false_2 by done. simpl.
      rewrite decide_True by tauto. done.
  - rewrite decide_False by tauto. done.
Qed.

(** Scenario 1 of the specification, through C8: ten files of ten. *)
Lemma C8_rule_not_created_witness :
  let did := "xnt_007330:raw_records-rfzvpzj4mf" in
  let lngs := "LNGS_USERDISK" in
  analyse lngs did 10 "" []
    {| name := lngs; DBentries := 0; DBStatus := "";
       RucioExists := false; RucioNFiles := 10 |}
  = [UploadWarning RuleNotCreated
       [RucioAddRule did lngs; AdmixFixUploadDb did;
        AdmixFixCreateUploadRules did]].
Proof.
  exact (C8_rule_not_created "LNGS_USERDISK"
    "xnt_007330:raw_records-rfzvpzj4mf" 10 ""
    {| name := "LNGS_USERDISK"; DBentries := 0; DBStatus := "";
       RucioExists := false; RucioNFiles := 10 |}
    eq_refl eq_refl eq_refl eq_refl eq_refl).
Defined.


(** Step 2 records a list length as the number of files in Rucio. *)
Lemma fill_all_RucioNFiles GetRule Replica list_replicas run did scope dname
    names rses :
  fill_all GetRule Replica list_replicas run did scope dname names = Return rses →
  Forall (fun rse => (0 ≤ RucioNFiles rse)%Z) rses.
Proof.
  revert rses. induction names as [|n names IH]; intros rses; simpl.
  - intros [= <-]. constructor.
  - unfold fill. unfold mbind, result_bind, mret, result_ret.
    destruct (db_scan did n (data run) 0 "") as [[entries status]|]; [|done].
    destruct (fill_all _ _ _ _ _ _ _ names) as [rs|]; [|done].
    intros [= <-]. constructor; [simpl; lia | by apply IH].
Qed.

(** Without a file count in the database, no count of Rucio equals the
    expected one. *)
Lemma fires_without_file_count ebstatus rwd rse c :
  (0 ≤ RucioNFiles rse)%Z →
  fires (-1) ebstatus rwd rse c = true →
  c = UploadNeverStarted ∨ c = UploadInterrupted.
Proof.
  intros Hn H%fires_spec.
  destruct c; simpl in H; destruct_and?; auto; lia.
Qed.

(** C10. When the datum has no file count, the expected count is -1;
    the count of Rucio is the length of a list, so a warning that needs
    the two counts to agree is never printed: every upload warning that
    [showdataset] prints is that of pattern 4 (nothing in Rucio, no rule)
    or that of pattern 5 (counts differ). *)
Theorem C10_no_file_count_leaves_two_warnings
    (UPLOAD_TO : string) (RSES : list string)
    (make_did : Z → string → string → string)
    (list_did_rules : string → string → list string)
    (GetRule : string → string → bool)
    (Replica : Type) (list_replicas : string → string → string → list Replica)
    (run : Run) (datum : Datum) (findings : list Finding) :
  d_file_count datum = None →
  showdataset UPLOAD_TO RSES make_did list_did_rules GetRule Replica
    list_replicas run datum = Return findings →
  Nfiles_of datum = (-1)%Z
  ∧ ∀ c hs, UploadWarning c hs ∈ findings →
      c = UploadNeverStarted ∨ c = UploadInterrupted.
Proof.
  intros Hnone Hshow. unfold Nfiles_of. rewrite Hnone. split; [done|].
  unfold showdataset in Hshow.
  destruct (d_location datum) as [loc|].
  2: { injection Hshow as <-. intros c hs H. by apply elem_of_nil in H. }
  unfold mbind, result_bind at 1 in Hshow.
  destruct (Py.index_last (Py.split "-" loc)) as [hash|]; [|done].
  unfold mbind, result_bind at 1 in Hshow.
  destruct (Py.index _ 0) as [scope|]; [|done].
  unfold mbind, result_bind at 1 in Hshow.
  destruct (Py.index _ 1) as [dname|]; [|done].
  unfold mbind, result_bind at 1 in Hshow.
  destruct (fill_all _ _ _ _ _ _ _ RSES) as [rses|] eqn:Hfill; [|done].
  injection Hshow as <-.
  apply fill_all_RucioNFiles in Hfill.
  intros c hs Hin.
  apply list_elem_of_In in Hin.
  apply in_flat_map in Hin as (rse & Hrse & Hin).
  apply list_elem_of_In in Hrse. apply list_elem_of_In in Hin.
  rewrite Forall_forall in Hfill. specialize (Hfill rse Hrse).
  unfold analyse in Hin. unfold Nfiles_of in Hin. rewrite Hnone in Hin.
  destruct (String.eqb_spec (name rse) UPLOAD_TO) as [<-|Hne].
  - pose proof (analyse_upload_elem
      (make_did (number run) (d_type datum) hash) (-1)
      (ebstatus_of datum) (list_did_rules scope dname) rse
      (UploadWarning c hs)) as Hel.
    unfold analyse in Hel. rewrite String.eqb_refl in Hel.
    apply Hel in Hin as (c' & Hfires & [= -> ->]).
    by eapply fires_without_file_count.
  - destruct (negb (consistent _ rse));
      [apply list_elem_of_singleton in Hin | apply elem_of_nil in Hin]; done.
Qed.

End ShowrunFacts.

Lemma C10_no_file_count_witness :
  Showrun.Nfiles_of waiting_datum = (-1)%Z
  ∧ ∀ c hs,
      Showrun.UploadWarning c hs
      ∈ [Showrun.UploadWarning Showrun.UploadNeverStarted
           [Showrun.AdmixFixSetEbStatus "xnt_007330:raw_records-rfzvpzj4mf"
              "eb_ready_to_upload"]] →
      c = Showrun.UploadNeverStarted ∨ c = Showrun.UploadInterrupted.
Proof.
  apply (C10_no_file_count_leaves_two_warnings "LNGS_USERDISK"
    ["LNGS_USERDISK"; "UC_OSG_USERDISK"] make_did_7330
    (fun _ _ => []) (fun _ _ => false) unit (fun _ _ _ => [])
    waiting_run waiting_datum).
  - reflexivity.
  - vm_compute. reflexivity.
Defined.

(** ** daemons/delete.py: the scan for tagged runs *)

Section ScanFacts.
Import Delete.

Lemma bind_run {A B} (m : M A) (k : A → M B) w :
  (m ≫= k) w = match m w with
               | (Return a, w') => k a w'
               | (Raise e, w') => (Raise e, w')
               end.
Proof. reflexivity. Qed.

Lemma only_scans_ret {A} (a : A) : only_scans (mret a).
Proof.
  intros [s t]. exists []. split; [|constructor].
  simpl. by rewrite app_nil_r.
Qed.

Lemma only_scans_raise {A} e : only_scans (@raise A e).
Proof.
  intros [s t]. exists []. split; [|constructor].
  simpl. by rewrite app_nil_r.
Qed.

Lemma only_scans_lift {A} (r : result A) : only_scans (lift r).
Proof.
  intros [s t]. exists []. split; [|constructor].
  simpl. by rewrite app_nil_r.
Qed.

Lemma only_scans_get_self : only_scans get_self.
Proof.
  intros [s t]. exists []. split; [|constructor].
  simpl. by rewrite app_nil_r.
Qed.

Lemma only_scans_emit ev : scan_event ev → only_scans (emit ev).
Proof. intros Hev w. exists [ev]. split; [done|]. by constructor. Qed.

Lemma only_scans_bind {A B} (m : M A) (k : A → M B) :
  only_scans m → (∀ a, only_scans (k a)) → only_scans (m ≫= k).
Proof.
  intros Hm Hk w. rewrite bind_run.
  destruct (Hm w) as (evs & Hw & Hevs).
  destruct (m w) as [[a|e] w']; simpl in Hw; subst w'.
  - destruct (Hk a {| self := self w; trace := trace w ++ evs |})
      as (evs' & Hw' & Hevs').
    exists (evs ++ evs'). rewrite Hw'. simpl. rewrite app_assoc.
    split; [done|]. by apply Forall_app.
  - by exists evs.
Qed.

Lemma only_scans_expr_stmt {A} (value : A) : only_scans (expr_stmt value).
Proof. apply only_scans_ret. Qed.

Lemma only_scans_try body : only_scans body → only_scans (try_except_pass body).
Proof.
  intros Hb w. destruct (Hb w) as (evs & Hw & Hevs). exists evs.
  unfold try_except_pass. destruct (body w) as [[[]|e] w']; by simpl in *.
Qed.

Lemma only_scans_for_each {A} (l : list A) (body : A → M unit) :
  (∀ x, only_scans (body x)) → only_scans (for_each l body).
Proof.
  intros Hb. induction l as [|x l IH]; simpl.
  - apply only_scans_ret.
  - apply only_scans_bind; [apply Hb | intros _; apply IH].
Qed.

Lemma only_scans_load_global name : only_scans (load_global name).
Proof.
  unfold load_global.
  destruct (_ || _); [apply only_scans_ret | apply only_scans_raise].
Qed.

Create HintDb scans.
#[local] Hint Resolve only_scans_ret only_scans_raise only_scans_lift
  only_scans_get_self only_scans_expr_stmt only_scans_load_global : scans.

Ltac scans :=
  repeat first
    [ apply only_scans_bind; [|intros ?]
    | apply only_scans_try
    | apply only_scans_for_each; intros ?
    | apply only_scans_emit; by simpl
    | solve [auto with scans]
    | match goal with |- only_scans (if ?b then _ else _) => destruct b end
    | match goal with |- only_scans (match ?b with _ => _ end) => destruct b end ].

Lemma only_scans_tag_datum RAW_DTYPES raw_type_only exclude_rses d :
  only_scans (tag_datum RAW_DTYPES raw_type_only exclude_rses d).
Proof. unfold tag_datum, append_tagged. scans. Qed.

Lemma only_scans_tagging_loop collection RAW_DTYPES raw_type_only exclude_rses n :
  only_scans (tagging_loop collection RAW_DTYPES raw_type_only exclude_rses n).
Proof.
  unfold tagging_loop, tag_run. scans. apply only_scans_tag_datum.
Qed.

Lemma only_scans_find_single_copy collection RAW_DTYPES raw_type_only exclude_rses :
  only_scans (find_single_copy collection RAW_DTYPES raw_type_only exclude_rses).
Proof.
  unfold find_single_copy, announce, report. scans.
  apply only_scans_tag_datum.
Qed.

(** The last line of [find_single_copy] never gets to print. *)
Lemma report_raises w : report w = (Raise (NameError "tagged_dids"), w).
Proof. reflexivity. Qed.


(** C3. Whatever the database holds and whatever the flags are, the loop
    of [find_single_copy] leaves [self.tagged_dids] and
    [self.tagged_on_rse] as they were, and so does the whole call: the
    result of [np.append] is dropped. From the state that [__init__]
    creates, both arrays are still empty afterwards. *)
Theorem C3_tagged_arrays_never_grow
    (collection : Collection) (RAW_DTYPES : list string)
    (raw_type_only : bool) (exclude_rses : list string)
    (n_tagged : nat) (w : world) (t : list event) :
  let loop := tagging_loop collection RAW_DTYPES raw_type_only exclude_rses
                n_tagged in
  let call := find_single_copy collection RAW_DTYPES raw_type_only
                exclude_rses in
  let w0 := {| self := init; trace := t |} in
  (tagged_dids (self (loop w).2) = tagged_dids (self w)
   ∧ tagged_on_rse (self (loop w).2) = tagged_on_rse (self w))
  ∧ (tagged_dids (self (call w).2) = tagged_dids (self w)
     ∧ tagged_on_rse (self (call w).2) = tagged_on_rse (self w))
  ∧ (tagged_dids (self (loop w0).2) = []
     ∧ tagged_on_rse (self (loop w0).2) = [])
  ∧ (tagged_dids (self (call w0).2) = []
     ∧ tagged_on_rse (self (call w0).2) = []).
Proof.
  intros loop call w0. subst loop call.
  pose proof (only_scans_tagging_loop collection RAW_DTYPES raw_type_only
                exclude_rses n_tagged) as Hloop.
  pose proof (only_scans_find_single_copy collection RAW_DTYPES raw_type_only
                exclude_rses) as Hcall.
  destruct (Hloop w) as (? & -> & _). destruct (Hcall w) as (? & -> & _).
  destruct (Hloop w0) as (? & -> & _). destruct (Hcall w0) as (? & -> & _).
  done.
Qed.

Lemma always_raises_bind {A B} (m : M A) (k : A → M B) :
  (∀ a w, ∃ e, (k a w).1 = Raise e) → ∀ w, ∃ e, ((m ≫= k) w).1 = Raise e.
Proof.
  intros Hk w. rewrite bind_run. destruct (m w) as [[a|e] w'].
  - apply Hk.
  - by exists e.
Qed.

Lemma find_single_copy_raises collection RAW_DTYPES raw_type_only exclude_rses w :
  ∃ e, (find_single_copy collection RAW_DTYPES raw_type_only exclude_rses w).1
       = Raise e.
Proof.
  unfold find_single_copy.
  do 3 (apply always_raises_bind; intros _ ?).
  rewrite report_raises. by eexists.
Qed.

Lemma find_single_copy_after_loop collection RAW_DTYPES raw_type_only
    exclude_rses w :
  (tagging_loop collection RAW_DTYPES raw_type_only exclude_rses
     (count collection) (at_loop_entry collection w)).1 = Return tt →
  (find_single_copy collection RAW_DTYPES raw_type_only exclude_rses w).1
  = Raise (NameError "tagged_dids").
Proof.
  unfold find_single_copy, at_loop_entry, announce.
  repeat (rewrite bind_run; simpl).
  destruct (tagging_loop _ _ _ _ _ _) as [[[]|e] w']; simpl; [done|].
  discriminate.
Qed.

(** C9. A call of [find_single_copy] never returns: once its loop has
    completed, and so in particular when no run is tagged, the last line
    raises NameError for [tagged_dids]. Hence [do_task] in mode
    single_copy ends by an exception with the daemon unchanged, without
    having entered [find_priority] and without any call of
    [delete_rule]. *)
Theorem C9_report_line_raises_NameError
    (collection : Collection) (rucio : Rucio) (RAW_DTYPES : list string)
    (raw_type_only : bool) (exclude_rses : list string) (w : world) :
  let call := find_single_copy collection RAW_DTYPES raw_type_only
                exclude_rses in
  let loop := tagging_loop collection RAW_DTYPES raw_type_only exclude_rses
                (count collection) in
  (∃ e, (call w).1 = Raise e)
  ∧ ((loop (at_loop_entry collection w)).1 = Return tt →
     (call w).1 = Raise (NameError "tagged_dids"))
  ∧ (count collection = 0 → (call w).1 = Raise (NameError "tagged_dids"))
  ∧ ∃ e evs,
      do_task collection rucio RAW_DTYPES "single_copy" raw_type_only
        exclude_rses w
      = (Raise e, {| self := self w; trace := trace w ++ evs |})
      ∧ (Enter "find_priority" ∉ evs)
      ∧ (∀ d rse, RucioDeleteRule d rse ∉ evs).
Proof.
  intros call loop. subst call loop.
  split; [apply find_single_copy_raises|].
  split; [apply find_single_copy_after_loop|]. split.
  { intros H0. apply find_single_copy_after_loop. rewrite H0. reflexivity. }
  unfold do_task. simpl. repeat (rewrite bind_run; simpl).
  pose proof (only_scans_find_single_copy collection RAW_DTYPES raw_type_only
                exclude_rses) as Hscan.
  pose proof (find_single_copy_raises collection RAW_DTYPES raw_type_only
                exclude_rses) as Hraise.
  set (w1 := {| self := self w; trace := trace w ++ _ |}).
  specialize (Hscan w1). specialize (Hraise w1).
  destruct Hscan as (evs & Hw & Hevs). destruct Hraise as [e He].
  destruct (find_single_copy _ _ _ _ w1) as [r w2].
  simpl in Hw, He. subst r w2. simpl.
  eexists e, (_ :: evs). subst w1. simpl. rewrite <- app_assoc. simpl.
  split; [reflexivity|].
  rewrite Forall_forall in Hevs.
  split.
  - intros [?|Hin]%elem_of_cons; [done|]. by apply Hevs in Hin.
  - intros d rse [?|Hin]%elem_of_cons; [done|]. by apply Hevs in Hin.
Qed.

(** A scan of a database with one tagged run, through C9: the loop
    completes and the last line raises. *)
Lemma C9_report_line_witness :
  (find_single_copy tagged_db ["raw_records"] true ["UC_DALI_USERDISK"]
     fresh).1 = Raise (NameError "tagged_dids").
Proof.
  apply (proj1 (proj2 (C9_report_line_raises_NameError tagged_db
    (rucio_with [("UC_OSG_USERDISK", 500); ("NIKHEF2_USERDISK", 1000)]%Z)
    ["raw_records"] true ["UC_DALI_USERDISK"] fresh))).
  reflexivity.
Defined.

(** The same scan as a whole: both copies pass the two tests, the
    arrays of the daemon stay empty, and the trace ends before the last
    line has printed. *)
Example scan_of_tagged_db :
  find_single_copy tagged_db ["raw_records"] true ["UC_DALI_USERDISK"] fresh
  = (Raise (NameError "tagged_dids"),
     {| self := init;
        trace := [Enter "find_single_copy"; DbCount;
                  Stdout "Searching for single copy tags among %s tagged runs..."
                         ["1"];
                  DbFind 0] |}).
Proof. reflexivity. Qed.

Example np_append_returns_a_new_array :
  np_append (tagged_dids init) did_7330 = [did_7330].
Proof. reflexivity. Qed.

(** A run document without the field [data] ends the loop by KeyError;
    the arrays stay empty all the same. *)
Example scan_of_run_without_data :
  find_single_copy {| count := 1; find := fun _ => Some {| data := None |} |}
    ["raw_records"] true ["UC_DALI_USERDISK"] fresh
  = (Raise (KeyError "data"),
     {| self := init;
        trace := [Enter "find_single_copy"; DbCount;
                  Stdout "Searching for single copy tags among %s tagged runs..."
                         ["1"];
                  DbFind 0] |}).
Proof. reflexivity. Qed.

End ScanFacts.

(** ** daemons/delete.py: the choice of the replicas to delete *)

Section PriorityFacts.
Import Delete.

Lemma result_bind_run {A B} (r : result A) (k : A → result B) :
  r ≫= k = match r with Return a => k a | Raise e => Raise e end.
Proof. reflexivity. Qed.

(** *** numpy *)

Lemma np_unique_elem d a : d ∈ np_unique a ↔ d ∈ a.
Proof.
  unfold np_unique. rewrite merge_sort_Permutation. apply elem_of_remove_dups.
Qed.

Lemma np_unique_NoDup a : NoDup (np_unique a).
Proof.
  unfold np_unique. rewrite merge_sort_Permutation. apply NoDup_remove_dups.
Qed.

Lemma mask_select_paired d dids rses :
  length dids = length rses →
  mask_select rses (String.eqb d <$> dids) = Return (paired_with d dids rses).
Proof.
  revert rses. induction dids as [|d' dids IH]; intros [|rse rses] Hlen;
    simpl in *; try done.
  rewrite IH by lia. simpl. by destruct (String.eqb d d').
Qed.

Lemma float64_of_small n : (Z.abs n < 2 ^ 53)%Z → exact n.
Proof.
  intros Hn. unfold exact, float64_of_int.
  by rewrite (proj2 (Z.ltb_lt _ _) Hn).
Qed.

Lemma exact_storable n : exact n → storable n.
Proof. intros Hn. by exists n. Qed.

Lemma argmax_from_spec a : ∀ best_i best i,
  let r := argmax_from best_i best i a in
  (r = best_i ∧ Forall (fun x => (x ≤ best)%Z) a)
  ∨ ∃ j x, r = i + j ∧ a !! j = Some x ∧ (best < x)%Z
           ∧ Forall (fun y => (y ≤ x)%Z) a
           ∧ ∀ k y, k < j → a !! k = Some y → (y < x)%Z.
Proof.
  induction a as [|x a IH]; intros best_i best i; simpl.
  { left. split; [done|constructor]. }
  destruct (Z.ltb_spec best x) as [Hlt|Hge].
  - right. destruct (IH i x (S i)) as [[-> Hall]|(j & y & -> & Hj & Hxy & Hall & Hfirst)].
    + exists 0, x. split; [lia|]. split; [done|]. split; [done|].
      split; [constructor; [lia|done]|]. intros k y Hk. lia.
    + exists (S j), y. split; [lia|]. split; [done|]. split; [lia|].
      split; [constructor; [lia|done]|].
      intros [|k] z Hk Hz; simpl in Hz.
      * injection Hz as <-. lia.
      * apply (Hfirst k z); [lia|done].
  - destruct (IH best_i best (S i)) as [[-> Hall]|(j & y & -> & Hj & Hxy & Hall & Hfirst)].
    + left. split; [done|]. constructor; [lia|done].
    + right. exists (S j), y. split; [lia|]. split; [done|]. split; [done|].
      split; [constructor; [lia|done]|].
      intros [|k] z Hk Hz; simpl in Hz.
      * injection Hz as <-. lia.
      * apply (Hfirst k z); [lia|done].
Qed.

(** [np.argmax] returns the first position of the maximum. *)
Lemma np_argmax_spec a :
  a ≠ [] →
  ∃ i m, np_argmax a = Return i ∧ a !! i = Some m
         ∧ (∀ y, y ∈ a → (y ≤ m)%Z)
         ∧ ∀ k y, k < i → a !! k = Some y → (y < m)%Z.
Proof.
  destruct a as [|x a]; [done|]. intros _. simpl.
  destruct (argmax_from_spec a 0 x 1) as [[-> Hall]|(j & y & -> & Hj & Hxy & Hall & Hfirst)].
  - exists 0, x. split; [done|]. split; [done|]. split.
    + intros y [->|Hy]%elem_of_cons; [lia|].
      rewrite Forall_forall in Hall. by apply Hall.
    + intros k y Hk. lia.
  - exists (1 + j), y. split; [done|]. split; [done|]. split.
    + intros z [->|Hz]%elem_of_cons; [lia|].
      rewrite Forall_forall in Hall. by apply Hall.
    + intros [|k] z Hk Hz; simpl in Hz.
      * injection Hz as <-. lia.
      * apply (Hfirst k z); [lia|done].
Qed.

(** *** The storage dictionary *)

Lemma storage_loop_run rucio l m w :
  storage_loop rucio l m w
  = (Return (foldl (fun m r => <[r := bytes_remaining rucio r]> m) m l),
     {| self := self w; trace := trace w ++ (RucioGetAccountUsage <$> l) |}).
Proof.
  revert m w. induction l as [|r l IH]; intros m [s t]; simpl.
  - by rewrite app_nil_r.
  - rewrite bind_run. simpl. rewrite IH. simpl. by rewrite <- app_assoc.
Qed.

Lemma lookup_foldl_insert (f : string → Z) l (m : gmap string Z) r :
  foldl (fun m r => <[r := f r]> m) m l !! r
  = if decide (r ∈ l) then Some (f r) else m !! r.
Proof.
  revert m. induction l as [|r' l IH]; intros m; [done|].
  - cbn [foldl]. rewrite IH.
    destruct (decide (r ∈ l)) as [Hin|Hnin], (decide (r ∈ r' :: l)) as [Hin'|Hnin'];
      try done.
    + exfalso. apply Hnin'. by right.
    + apply elem_of_cons in Hin' as [->|?]; [|done]. by rewrite lookup_insert_eq.
    + rewrite lookup_insert_ne; [done|]. intros ->. apply Hnin'. by left.
Qed.

Lemma storage_dict_lookup rucio r :
  storage_dict rucio !! r
  = if decide (r ∈ list_rses rucio) then Some (bytes_remaining rucio r)
    else None.
Proof. unfold storage_dict. by rewrite lookup_foldl_insert, lookup_empty. Qed.

Lemma build_rse_storage_dict_run rucio w :
  build_rse_storage_dict rucio w
  = (Return tt,
     {| self := with_rse_dict (self w) (storage_dict rucio);
        trace := trace w
                 ++ [Enter "build_rse_storage_dict"; RucioListRses]
                 ++ (RucioGetAccountUsage <$> list_rses rucio) |}).
Proof.
  unfold build_rse_storage_dict.
  repeat (rewrite bind_run; simpl). rewrite storage_loop_run. simpl.
  unfold with_rse_dict, storage_dict. by rewrite <- !app_assoc.
Qed.

(** [find_priority] as a whole: the dictionary is rebuilt, then either
    the loop ends and the two arrays are assigned, or it raises and they
    stay as they were. *)
Lemma find_priority_run rucio w :
  let s := with_rse_dict (self w) (storage_dict rucio) in
  let t := trace w ++ priority_events rucio in
  find_priority rucio w
  = match priority_loop s (np_unique (tagged_dids (self w))) [] [] with
    | Return (dids, rses) =>
        (Return tt,
         {| self := {| tagged_on_rse := tagged_on_rse s;
                       tagged_dids := tagged_dids s;
                       to_delete_on_rse := rses;
                       to_delete_dids := dids;
                       rse_dict := rse_dict s |};
            trace := t |})
    | Raise e => (Raise e, {| self := s; trace := t |})
    end.
Proof.
  unfold find_priority, priority_events.
  repeat (rewrite bind_run; simpl). rewrite build_rse_storage_dict_run. simpl.
  repeat (rewrite bind_run; simpl). unfold lift.
  rewrite <- !app_assoc. simpl.
  destruct (priority_loop _ _ _ _) as [[dids rses]|e]; done.
Qed.


(** *** The pass for one did *)

Lemma paired_with_app d dids1 rses1 dids2 rses2 :
  length dids1 = length rses1 →
  paired_with d (dids1 ++ dids2) (rses1 ++ rses2)
  = paired_with d dids1 rses1 ++ paired_with d dids2 rses2.
Proof.
  revert rses1. induction dids1 as [|d' dids1 IH]; intros [|r rses1] Hlen;
    simpl in *; try done.
  rewrite IH by lia. by destruct (String.eqb d d').
Qed.

Lemma paired_with_replicate d d' rest :
  paired_with d (replicate (length rest) d') rest
  = if String.eqb d d' then rest else [].
Proof.
  induction rest as [|r rest IH]; simpl.
  - by destruct (String.eqb d d').
  - rewrite IH. by destruct (String.eqb d d').
Qed.

Lemma paired_with_elem d dids rses r :
  r ∈ paired_with d dids rses → r ∈ rses.
Proof.
  revert rses. induction dids as [|d' dids IH]; intros [|r' rses]; simpl;
    try (intros Hnil; by apply elem_of_nil in Hnil).
  destruct (String.eqb d d').
  - intros [->|Hin]%elem_of_cons; [by left | right; by apply IH].
  - intros Hin. right. by apply IH.
Qed.

Lemma paired_with_nonempty d dids rses :
  length dids = length rses → d ∈ dids → paired_with d dids rses ≠ [].
Proof.
  revert rses. induction dids as [|d' dids IH]; intros [|r rses] Hlen Hin;
    simpl in *; try done.
  - by apply elem_of_nil in Hin.
  - destruct (String.eqb_spec d d') as [->|Hne]; [done|].
    apply elem_of_cons in Hin as [?|Hin]; [done|]. apply IH; [lia|done].
Qed.

Lemma paired_with_absent d dids rses : d ∉ dids → paired_with d dids rses = [].
Proof.
  revert rses. induction dids as [|d' dids IH]; intros [|r rses] Hnin;
    simpl; try done.
  destruct (String.eqb_spec d d') as [->|Hne].
  - exfalso. apply Hnin. by left.
  - apply IH. intros Hin. apply Hnin. by right.
Qed.

Lemma remaining_storage_cons rse_dict rse rses :
  remaining_storage rse_dict (rse :: rses)
  = (cell ← stored rse_dict rse;
     cells ← remaining_storage rse_dict rses;
     Return (cell :: cells)).
Proof.
  unfold stored. simpl. rewrite !result_bind_run.
  by destruct (Py.getitem rse (rse_dict !! rse)).
Qed.

Lemma remaining_storage_ok rse_dict rses :
  (∀ r, r ∈ rses → ∃ v, stored rse_dict r = Return v) →
  ∃ cells, remaining_storage rse_dict rses = Return cells
           ∧ Forall2 (fun r v => stored rse_dict r = Return v) rses cells.
Proof.
  induction rses as [|r rses IH]; intros Hall.
  - exists []. split; [done|constructor].
  - destruct (Hall r) as [v Hv]; [by left|].
    destruct IH as (cells & Hcells & Hrel).
    { intros r' Hr'. apply Hall. by right. }
    exists (v :: cells). rewrite remaining_storage_cons, Hv. simpl.
    rewrite result_bind_run, Hcells. split; [done|]. by constructor.
Qed.

Lemma remaining_storage_missing rse_dict rses :
  (∀ r, r ∈ rses → is_Some (rse_dict !! r) → ∃ v, stored rse_dict r = Return v) →
  (∃ r, r ∈ rses ∧ rse_dict !! r = None) →
  ∃ k, remaining_storage rse_dict rses = Raise (KeyError k)
       ∧ k ∈ rses ∧ rse_dict !! k = None.
Proof.
  induction rses as [|r rses IH]; intros Hall (r0 & Hr0 & Hnone).
  { by apply elem_of_nil in Hr0. }
  rewrite remaining_storage_cons.
  destruct (rse_dict !! r) as [b|] eqn:Hr.
  - destruct (Hall r) as [v Hv]; [by left | by rewrite Hr |].
    rewrite Hv. simpl. rewrite result_bind_run.
    destruct IH as (k & -> & Hk & Hknone).
    { intros r' Hr'. apply Hall. by right. }
    { apply elem_of_cons in Hr0 as [->|Hr0]; [congruence | by exists r0]. }
    exists k. split; [done|]. split; [by right | done].
  - exists r. unfold stored. rewrite Hr. simpl. split; [done|].
    split; [by left | done].
Qed.

(** Line 56 keeps the first RSE of greatest stored value. *)
Lemma max_rse_of_spec rse_dict rses :
  rses ≠ [] →
  (∀ r, r ∈ rses → ∃ v, stored rse_dict r = Return v) →
  ∃ i max_rse top,
    max_rse_of rse_dict rses = Return max_rse
    ∧ rses !! i = Some max_rse
    ∧ stored rse_dict max_rse = Return top
    ∧ (∀ r v, r ∈ rses → stored rse_dict r = Return v → (v ≤ top)%Z)
    ∧ (∀ j r v, j < i → rses !! j = Some r → stored rse_dict r = Return v →
         (v < top)%Z).
Proof.
  intros Hne Hall.
  destruct (remaining_storage_ok rse_dict rses Hall) as (cells & Hcells & Hrel).
  assert (cells ≠ []) as Hcne.
  { intros ->. apply Forall2_nil_inv_r in Hrel. done. }
  destruct (np_argmax_spec cells Hcne) as (i & top & Hi & Htop & Hmax & Hfirst).
  destruct (Forall2_lookup_r _ _ _ _ _ Hrel Htop) as (max_rse & Hmr & Hst).
  exists i, max_rse, top. unfold max_rse_of.
  rewrite Hcells. simpl. rewrite result_bind_run, Hi. unfold Py.index.
  rewrite Hmr. split; [done|]. split; [done|]. split; [done|]. split.
  - intros r v [j Hj]%list_elem_of_lookup Hv.
    destruct (Forall2_lookup_l _ _ _ _ _ Hrel Hj) as (v' & Hv' & Hst').
    assert (v' = v) as -> by congruence.
    apply Hmax. apply list_elem_of_lookup. by exists j.
  - intros j r v Hji Hj Hv.
    destruct (Forall2_lookup_l _ _ _ _ _ Hrel Hj) as (v' & Hv' & Hst').
    assert (v' = v) as -> by congruence.
    by apply (Hfirst j).
Qed.

Lemma max_rse_of_missing rse_dict rses :
  (∀ r, r ∈ rses → is_Some (rse_dict !! r) → ∃ v, stored rse_dict r = Return v) →
  (∃ r, r ∈ rses ∧ rse_dict !! r = None) →
  ∃ k, max_rse_of rse_dict rses = Raise (KeyError k)
       ∧ k ∈ rses ∧ rse_dict !! k = None.
Proof.
  intros Hall Hmiss.
  destruct (remaining_storage_missing rse_dict rses Hall Hmiss)
    as (k & Hk & Hin & Hnone).
  exists k. unfold max_rse_of. by rewrite Hk.
Qed.

Lemma mark_rest_run s d :
  length (tagged_dids s) = length (tagged_on_rse s) →
  mark_rest s d
  = (max_rse ← max_rse_of (rse_dict s) (locations s d);
     let rest := filter (fun rse => rse ≠ max_rse) (locations s d) in
     Return (replicate (length rest) d, rest)).
Proof.
  intros Hlen. unfold mark_rest, locations.
  by rewrite mask_select_paired.
Qed.

(** *** The loop over the dids *)

Lemma priority_loop_returns s ds : ∀ acc_dids acc_rses,
  length (tagged_dids s) = length (tagged_on_rse s) →
  length acc_dids = length acc_rses →
  NoDup ds →
  (∀ d, d ∈ ds → ∃ max_rse,
     max_rse_of (rse_dict s) (locations s d) = Return max_rse) →
  ∃ dids rses,
    priority_loop s ds acc_dids acc_rses = Return (dids, rses)
    ∧ ∀ d, paired_with d dids rses
           = paired_with d acc_dids acc_rses
             ++ if decide (d ∈ ds) then rest_of s d else [].
Proof.
  induction ds as [|d0 ds IH]; intros acc_dids acc_rses Hlen Hacc Hnd Hall.
  { exists acc_dids, acc_rses. split; [done|]. intros d.
    rewrite decide_False by apply not_elem_of_nil. by rewrite app_nil_r. }
  apply NoDup_cons in Hnd as [Hd0 Hnd].
  destruct (Hall d0) as [max_rse Hmax]; [by left|].
  cbn [priority_loop]. rewrite mark_rest_run by done.
  rewrite Hmax. simpl.
  set (rest := filter (fun rse => rse ≠ max_rse) (locations s d0)).
  destruct (IH (acc_dids ++ replicate (length rest) d0) (acc_rses ++ rest))
    as (dids & rses & Hrun & Hspec); try done.
  { rewrite !length_app, length_replicate. lia. }
  { intros d Hd. apply Hall. by right. }
  exists dids, rses. split; [done|]. intros d. rewrite Hspec.
  rewrite paired_with_app by done. rewrite paired_with_replicate.
  rewrite <- app_assoc. f_equal.
  destruct (String.eqb_spec d d0) as [->|Hne].
  - rewrite decide_False by done. rewrite decide_True by left.
    rewrite app_nil_r. unfold rest_of. by rewrite Hmax.
  - simpl. destruct (decide (d ∈ ds)) as [Hin|Hnin].
    + rewrite decide_True; [done | by right].
    + rewrite decide_False; [done|]. rewrite elem_of_cons. tauto.
Qed.

Lemma priority_loop_raises (Q : exn → Prop) s ds : ∀ acc_dids acc_rses,
  length (tagged_dids s) = length (tagged_on_rse s) →
  (∀ d e, d ∈ ds →
     max_rse_of (rse_dict s) (locations s d) = Raise e → Q e) →
  (∃ d e, d ∈ ds ∧ max_rse_of (rse_dict s) (locations s d) = Raise e) →
  ∃ e, priority_loop s ds acc_dids acc_rses = Raise e ∧ Q e.
Proof.
  induction ds as [|d0 ds IH]; intros acc_dids acc_rses Hlen HQ (d & e & Hd & He).
  { by apply elem_of_nil in Hd. }
  cbn [priority_loop]. rewrite mark_rest_run by done.
  destruct (max_rse_of (rse_dict s) (locations s d0)) as [max_rse|e0] eqn:H0.
  - simpl. apply IH; [done | |].
    + intros d' e' Hd'. apply HQ. by right.
    + apply elem_of_cons in Hd as [->|Hd]; [congruence|]. by exists d, e.
  - exists e0. split; [done|]. apply (HQ d0); [by left | done].
Qed.

End PriorityFacts.

Section SelectorFacts.
Import Delete.

Lemma locations_with_rse_dict s m d :
  locations (with_rse_dict s m) d = locations s d.
Proof. reflexivity. Qed.

Lemma stored_storage_dict rucio r :
  r ∈ list_rses rucio →
  stored (storage_dict rucio) r = float64_of_int (bytes_remaining rucio r).
Proof.
  intros Hr. unfold stored. rewrite storage_dict_lookup.
  by rewrite decide_True.
Qed.

Lemma paired_with_covers dids rses r :
  length dids = length rses → r ∈ rses →
  ∃ d, d ∈ dids ∧ r ∈ paired_with d dids rses.
Proof.
  revert rses. induction dids as [|d' dids IH]; intros [|r' rses] Hlen Hr;
    simpl in *; try done.
  { by apply elem_of_nil in Hr. }
  apply elem_of_cons in Hr as [->|Hr].
  - exists d'. split; [by left|]. rewrite String.eqb_refl. by left.
  - destruct (IH rses) as (d & Hd & Hin); [lia | done |].
    exists d. split; [by right|].
    destruct (String.eqb d d'); [by right | done].
Qed.

(** When every tagged RSE has a storable capacity in the dictionary, the
    pass for each tagged did finds its RSE to keep. *)
Lemma max_rse_of_tagged rucio s d :
  length (tagged_dids s) = length (tagged_on_rse s) →
  (∀ r, r ∈ tagged_on_rse s →
     r ∈ list_rses rucio ∧ storable (bytes_remaining rucio r)) →
  d ∈ tagged_dids s →
  ∃ i max_rse top,
    max_rse_of (storage_dict rucio) (locations s d) = Return max_rse
    ∧ locations s d !! i = Some max_rse
    ∧ float64_of_int (bytes_remaining rucio max_rse) = Return top
    ∧ (∀ r v, r ∈ locations s d →
         float64_of_int (bytes_remaining rucio r) = Return v → (v ≤ top)%Z)
    ∧ (∀ j r v, j < i → locations s d !! j = Some r →
         float64_of_int (bytes_remaining rucio r) = Return v → (v < top)%Z).
Proof.
  intros Hlen Hall Hd.
  assert (∀ r, r ∈ locations s d → r ∈ list_rses rucio) as Hdir.
  { intros r Hr%paired_with_elem. by apply Hall. }
  destruct (max_rse_of_spec (storage_dict rucio) (locations s d))
    as (i & max_rse & top & Hmax & Hi & Htop & Hle & Hlt).
  { by apply paired_with_nonempty. }
  { intros r Hr. rewrite stored_storage_dict by auto.
    apply Hall. by apply paired_with_elem in Hr. }
  assert (max_rse ∈ locations s d) as Hin.
  { apply list_elem_of_lookup. by exists i. }
  exists i, max_rse, top. split; [done|]. split; [done|].
  rewrite <- stored_storage_dict by auto. split; [done|]. split.
  - intros r v Hr Hv. apply (Hle r); [done|].
    by rewrite stored_storage_dict by auto.
  - intros j r v Hji Hj Hv. apply (Hlt j r); [done|done|].
    rewrite stored_storage_dict; [done|].
    apply Hdir, list_elem_of_lookup. by exists j.
Qed.

(** The selector, when the pass completes: for every tagged did the kept
    RSE is the first one of greatest float64 value, and every other RSE
    of the did is marked. *)
Theorem find_priority_keeps_first_maximum (rucio : Rucio) (w : world) :
  length (tagged_dids (self w)) = length (tagged_on_rse (self w)) →
  (∀ r, r ∈ tagged_on_rse (self w) →
     r ∈ list_rses rucio ∧ storable (bytes_remaining rucio r)) →
  ∃ w', find_priority rucio w = (Return tt, w')
    ∧ tagged_dids (self w') = tagged_dids (self w)
    ∧ tagged_on_rse (self w') = tagged_on_rse (self w)
    ∧ ∀ d, d ∈ tagged_dids (self w) →
        ∃ i max_rse top,
          locations (self w) d !! i = Some max_rse
          ∧ marked (self w') d
            = filter (fun rse => rse ≠ max_rse) (locations (self w) d)
          ∧ float64_of_int (bytes_remaining rucio max_rse) = Return top
          ∧ (∀ r v, r ∈ locations (self w) d →
               float64_of_int (bytes_remaining rucio r) = Return v →
               (v ≤ top)%Z)
          ∧ (∀ j r v, j < i → locations (self w) d !! j = Some r →
               float64_of_int (bytes_remaining rucio r) = Return v →
               (v < top)%Z).
Proof.
  intros Hlen Hall. rewrite find_priority_run.
  set (s := with_rse_dict (self w) (storage_dict rucio)).
  destruct (priority_loop_returns s (np_unique (tagged_dids (self w))) [] [])
    as (dids & rses & Hrun & Hspec); try done.
  { apply np_unique_NoDup. }
  { intros d Hd. rewrite np_unique_elem in Hd.
    destruct (max_rse_of_tagged rucio (self w) d Hlen Hall Hd)
      as (i & max_rse & top & Hmax & _).
    by exists max_rse. }
  rewrite Hrun. eexists. split; [reflexivity|]. simpl.
  split; [done|]. split; [done|]. intros d Hd.
  destruct (max_rse_of_tagged rucio (self w) d Hlen Hall Hd)
    as (i & max_rse & top & Hmax & Hi & Htop & Hle & Hlt).
  exists i, max_rse, top. split; [done|]. split; [|done].
  unfold marked. simpl. rewrite Hspec. simpl.
  rewrite decide_True by (by rewrite np_unique_elem).
  unfold rest_of. subst s. simpl. rewrite locations_with_rse_dict.
  by rewrite Hmax.
Qed.


Lemma filter_ne_Permutation (l : list string) x :
  NoDup l → x ∈ l → x :: filter (fun y => y ≠ x) l ≡ₚ l.
Proof.
  induction l as [|y l IH]; intros Hnd Hx.
  { by apply elem_of_nil in Hx. }
  apply NoDup_cons in Hnd as [Hy Hnd]. rewrite filter_cons.
  destruct (decide (y ≠ x)) as [Hne|Heq].
  - apply elem_of_cons in Hx as [->|Hx]; [done|].
    rewrite Permutation_swap. f_equiv. by apply IH.
  - assert (y = x) as -> by (destruct (decide (y = x)); tauto).
    f_equiv. clear IH Hx Hnd. induction l as [|z l IH]; [done|].
    rewrite filter_cons. rewrite not_elem_of_cons in Hy. destruct Hy as [Hxz Hy].
    rewrite decide_True by congruence. f_equiv. by apply IH.
Qed.

Lemma NoDup_fmap_eq {A B} (f : A → B) (l : list A) x y :
  NoDup (f <$> l) → x ∈ l → y ∈ l → f x = f y → x = y.
Proof.
  induction l as [|z l IH]; intros Hnd Hx Hy Hf.
  { by apply elem_of_nil in Hx. }
  rewrite fmap_cons in Hnd. apply NoDup_cons in Hnd as [Hz Hnd].
  apply elem_of_cons in Hx as [->|Hx]; apply elem_of_cons in Hy as [->|Hy];
    try done.
  - exfalso. apply Hz. rewrite Hf. by apply list_elem_of_fmap_2.
  - exfalso. apply Hz. rewrite <- Hf. by apply list_elem_of_fmap_2.
  - by apply IH.
Qed.

(** The selector on capacities that float64 holds exactly, as it does
    every integer below 2^53 in magnitude: the kept RSE is the first one
    of greatest capacity; when the capacities of the RSEs of the did are
    pairwise distinct, it is the only one of greatest capacity and the
    kept RSE together with the marked ones are the RSEs of the did. *)
Theorem find_priority_on_exact_capacities (rucio : Rucio) (w : world)
    (d : string) :
  length (tagged_dids (self w)) = length (tagged_on_rse (self w)) →
  (∀ r, r ∈ tagged_on_rse (self w) →
     r ∈ list_rses rucio ∧ storable (bytes_remaining rucio r)) →
  d ∈ tagged_dids (self w) →
  (∀ r, r ∈ locations (self w) d → exact (bytes_remaining rucio r)) →
  ∃ w' i max_rse,
    find_priority rucio w = (Return tt, w')
    ∧ locations (self w) d !! i = Some max_rse
    ∧ marked (self w') d
      = filter (fun rse => rse ≠ max_rse) (locations (self w) d)
    ∧ (∀ r, r ∈ locations (self w) d →
         (bytes_remaining rucio r ≤ bytes_remaining rucio max_rse)%Z)
    ∧ (∀ j r, j < i → locations (self w) d !! j = Some r →
         (bytes_remaining rucio r < bytes_remaining rucio max_rse)%Z)
    ∧ (NoDup (bytes_remaining rucio <$> locations (self w) d) →
       max_rse :: marked (self w') d ≡ₚ locations (self w) d
       ∧ length (marked (self w') d) + 1 = length (locations (self w) d)
       ∧ ∀ r, r ∈ marked (self w') d →
           (bytes_remaining rucio r < bytes_remaining rucio max_rse)%Z).
Proof.
  intros Hlen Hall Hd Hexact.
  destruct (find_priority_keeps_first_maximum rucio w Hlen Hall)
    as (w' & Hrun & _ & _ & Hspec).
  destruct (Hspec d Hd) as (i & max_rse & top & Hi & Hmarked & Htop & Hle & Hlt).
  assert (max_rse ∈ locations (self w) d) as Hin.
  { apply list_elem_of_lookup. by exists i. }
  assert (top = bytes_remaining rucio max_rse) as ->.
  { specialize (Hexact max_rse Hin). unfold exact in Hexact. congruence. }
  exists w', i, max_rse. split; [done|]. split; [done|]. split; [done|].
  assert (∀ r, r ∈ locations (self w) d →
            (bytes_remaining rucio r ≤ bytes_remaining rucio max_rse)%Z) as Hle'.
  { intros r Hr. apply (Hle r); [done|]. by apply Hexact. }
  split; [done|]. split.
  { intros j r Hji Hj. apply (Hlt j r); [done|done|].
    apply Hexact, list_elem_of_lookup. by exists j. }
  intros Hnd. rewrite Hmarked.
  assert (NoDup (locations (self w) d)) as Hnd' by by eapply NoDup_fmap_1.
  pose proof (filter_ne_Permutation _ _ Hnd' Hin) as Hperm.
  split; [done|]. split.
  { apply Permutation_length in Hperm. simpl in Hperm. lia. }
  intros r [Hne Hr]%list_elem_of_filter.
  specialize (Hle' r Hr).
  assert (bytes_remaining rucio r ≠ bytes_remaining rucio max_rse); [|lia].
  intros Heq. apply Hne. by eapply (NoDup_fmap_eq (bytes_remaining rucio)).
Qed.

End SelectorFacts.

Section SelectorClaims.
Import Delete.

(** C2, failing input. Two RSEs whose remaining bytes differ by one
    above 2^53 get the same float64 in [remaining_storage]; [np.argmax]
    then answers 0, so the first RSE is kept and the second one, which
    has strictly more room, is marked for deletion. *)
Theorem C2_distinct_capacities_collide_in_float64 :
  let rucio := rucio_with [("A", 2 ^ 54); ("B", 2 ^ 54 + 1)]%Z in
  let w := tagged [did_7330; did_7330] ["A"; "B"] in
  (bytes_remaining rucio "A" < bytes_remaining rucio "B")%Z
  ∧ remaining_storage (storage_dict rucio) ["A"; "B"]
    = Return [2 ^ 54; 2 ^ 54]%Z
  ∧ (find_priority rucio w).1 = Return tt
  ∧ to_delete_dids (self (find_priority rucio w).2) = [did_7330]
  ∧ to_delete_on_rse (self (find_priority rucio w).2) = ["B"].
Proof. vm_compute. repeat split; reflexivity. Qed.

(** C7, failing input. Of three RSEs, the last two tie at the greatest
    capacity and the first one has one byte less, above 2^53: all three
    get the same float64, and the first RSE is kept although it is not one
    of greatest capacity. *)
Theorem C7_first_maximum_lost_in_float64 :
  let rucio :=
    rucio_with [("A", 2 ^ 54); ("B", 2 ^ 54 + 1); ("C", 2 ^ 54 + 1)]%Z in
  let w := tagged [did_7330; did_7330; did_7330] ["A"; "B"; "C"] in
  (bytes_remaining rucio "A" < bytes_remaining rucio "B")%Z
  ∧ bytes_remaining rucio "B" = bytes_remaining rucio "C"
  ∧ max_rse_of (storage_dict rucio) ["A"; "B"; "C"] = Return "A"
  ∧ (find_priority rucio w).1 = Return tt
  ∧ to_delete_on_rse (self (find_priority rucio w).2) = ["B"; "C"].
Proof. vm_compute. repeat split; reflexivity. Qed.

(** Scenario 4 of the specification: capacities that float64 holds
    exactly, with a tie at the top; the first of the two is kept. *)
Example scenario_tie_keeps_first_maximum :
  let rucio := rucio_with [("A", 500); ("B", 1000); ("C", 1000)]%Z in
  let w := tagged [did_7330; did_7330; did_7330] ["A"; "B"; "C"] in
  max_rse_of (storage_dict rucio) ["A"; "B"; "C"] = Return "B"
  ∧ (find_priority rucio w).1 = Return tt
  ∧ to_delete_dids (self (find_priority rucio w).2) = [did_7330; did_7330]
  ∧ to_delete_on_rse (self (find_priority rucio w).2) = ["A"; "C"].
Proof. vm_compute. repeat split; reflexivity. Qed.


(** C5, counterexample. The did is tagged on an RSE that Rucio does not
    list: the lookup in the dictionary raises KeyError, nothing is marked
    for the did on the RSE that is known, and the did that comes after it
    is not looked at. *)
Lemma C5_missing_capacity_is_not_zero :
  let rucio := rucio_with [("A", 500); ("C", 1000)]%Z in
  let w := tagged [did_7330; did_7330; did_7331; did_7331]
                  ["A"; "B"; "A"; "C"] in
  (find_priority rucio w).1 = Raise (KeyError "B")
  ∧ to_delete_dids (self (find_priority rucio w).2) = []
  ∧ to_delete_on_rse (self (find_priority rucio w).2) = [].
Proof. vm_compute. repeat split; reflexivity. Qed.

(** C5, amended. When the two tagged arrays are in step, every capacity
    that Rucio reports fits a float64, and some tagged RSE is absent from
    the dictionary, [find_priority] raises KeyError for a tagged RSE that
    is absent, and the pass ends there: the dictionary has been rebuilt,
    but the arrays of the replicas to delete are as they were before the
    call. *)
Theorem C5_missing_capacity_aborts_the_pass (rucio : Rucio) (w : world) :
  length (tagged_dids (self w)) = length (tagged_on_rse (self w)) →
  (∀ r, r ∈ list_rses rucio → storable (bytes_remaining rucio r)) →
  (∃ r, r ∈ tagged_on_rse (self w) ∧ r ∉ list_rses rucio) →
  ∃ k, find_priority rucio w
       = (Raise (KeyError k),
          {| self := with_rse_dict (self w) (storage_dict rucio);
             trace := trace w ++ priority_events rucio |})
       ∧ k ∈ tagged_on_rse (self w)
       ∧ (k ∉ list_rses rucio)
       ∧ to_delete_dids (self (find_priority rucio w).2)
         = to_delete_dids (self w)
       ∧ to_delete_on_rse (self (find_priority rucio w).2)
         = to_delete_on_rse (self w).
Proof.
  intros Hlen Hfit (r & Hr & Hmiss). rewrite find_priority_run.
  set (s := with_rse_dict (self w) (storage_dict rucio)).
  assert (∀ x, storage_dict rucio !! x = None ↔ x ∉ list_rses rucio) as Hnone.
  { intros x. rewrite storage_dict_lookup. by case_decide. }
  assert (∀ x, is_Some (storage_dict rucio !! x) →
            ∃ v, stored (storage_dict rucio) x = Return v) as Hsome.
  { intros x [b Hb]. rewrite storage_dict_lookup in Hb.
    case_decide as Hx; [|done]. rewrite stored_storage_dict by done.
    by apply Hfit. }
  destruct (priority_loop_raises
              (fun e => ∃ k, e = KeyError k ∧ k ∈ tagged_on_rse (self w)
                             ∧ k ∉ list_rses rucio)
              s (np_unique (tagged_dids (self w))) [] [])
    as (e & Hrun & k & -> & Hk & Hkmiss); [done | | |].
  - intros d e Hd He. rewrite np_unique_elem in Hd.
    subst s. simpl in He. rewrite locations_with_rse_dict in He.
    destruct (decide (Forall (fun x => is_Some (storage_dict rucio !! x))
                             (locations (self w) d))) as [Hall|Hnall].
    + rewrite Forall_forall in Hall.
      destruct (max_rse_of_spec (storage_dict rucio) (locations (self w) d))
        as (i & max_rse & top & Hmax & _); [by apply paired_with_nonempty | |].
      * intros x Hx. apply Hsome, Hall, Hx.
      * congruence.
    + apply not_Forall_Exists in Hnall; [|apply _].
      apply Exists_exists in Hnall as (x & Hx & Hxnone).
      destruct (max_rse_of_missing (storage_dict rucio) (locations (self w) d))
        as (k & Hk & Hkin & Hknone).
      * intros x' _. apply Hsome.
      * exists x. split; [done|]. by apply eq_None_not_Some.
      * exists k. split; [congruence|]. split; [by eapply paired_with_elem|].
        by apply Hnone.
  - destruct (paired_with_covers _ _ r Hlen Hr) as (d & Hd & Hin).
    destruct (max_rse_of_missing (storage_dict rucio) (locations (self w) d))
      as (k & Hk & _).
    + intros x' _. apply Hsome.
    + exists r. split; [done|]. by apply Hnone.
    + exists d, (KeyError k). split; [by rewrite np_unique_elem|].
      subst s. simpl. by rewrite locations_with_rse_dict.
  - exists k. rewrite Hrun. done.
Qed.

Lemma C5_missing_capacity_witness :
  ∃ k, find_priority (rucio_with [("A", 500); ("C", 1000)]%Z)
         (tagged [did_7330; did_7330] ["A"; "B"])
       = (Raise (KeyError k),
          {| self := with_rse_dict (self (tagged [did_7330; did_7330] ["A"; "B"]))
                       (storage_dict (rucio_with [("A", 500); ("C", 1000)]%Z));
             trace := priority_events (rucio_with [("A", 500); ("C", 1000)]%Z) |})
       ∧ k ∈ ["A"; "B"]
       ∧ (k ∉ ["A"; "C"])
       ∧ to_delete_dids
           (self (find_priority (rucio_with [("A", 500); ("C", 1000)]%Z)
                    (tagged [did_7330; did_7330] ["A"; "B"])).2) = []
       ∧ to_delete_on_rse
           (self (find_priority (rucio_with [("A", 500); ("C", 1000)]%Z)
                    (tagged [did_7330; did_7330] ["A"; "B"])).2) = [].
Proof.
  apply (C5_missing_capacity_aborts_the_pass
           (rucio_with [("A", 500); ("C", 1000)]%Z)
           (tagged [did_7330; did_7330] ["A"; "B"])).
  - reflexivity.
  - intros r Hr. apply exact_storable, float64_of_small.
    simpl in Hr. rewrite !elem_of_cons, elem_of_nil in Hr.
    destruct Hr as [->|[->|[]]]; vm_compute; reflexivity.
  - exists "B". split; [by right; left|].
    simpl. rewrite !elem_of_cons, elem_of_nil.
    intros [?|[?|[]]]; discriminate.
Defined.


Lemma priority_loop_visits s ds acc_dids acc_rses dids rses d :
  length (tagged_dids s) = length (tagged_on_rse s) →
  priority_loop s ds acc_dids acc_rses = Return (dids, rses) →
  d ∈ ds →
  ∃ max_rse, max_rse_of (rse_dict s) (locations s d) = Return max_rse.
Proof.
  intros Hlen Hrun Hd.
  destruct (max_rse_of (rse_dict s) (locations s d)) as [max_rse|e] eqn:Hmax.
  { by exists max_rse. }
  destruct (priority_loop_raises (fun _ => True) s ds acc_dids acc_rses)
    as (e' & Hraise & _); [done | done | by exists d, e | congruence].
Qed.

Lemma mask_select_out_of_step {A} (a : list A) (mask : list bool) :
  length a ≠ length mask → mask_select a mask = Raise IndexError.
Proof.
  revert mask. induction a as [|x a IH]; intros [|b mask] Hlen; simpl in *;
    try done.
  rewrite IH by lia. done.
Qed.

Lemma priority_loop_out_of_step s ds acc_dids acc_rses :
  length (tagged_dids s) ≠ length (tagged_on_rse s) →
  ds ≠ [] →
  priority_loop s ds acc_dids acc_rses = Raise IndexError.
Proof.
  intros Hlen Hds. destruct ds as [|d ds]; [done|].
  cbn [priority_loop]. unfold mark_rest.
  rewrite mask_select_out_of_step; [done|].
  rewrite length_fmap. congruence.
Qed.

Lemma np_unique_nil_inv a : np_unique a = [] → a = [].
Proof.
  intros Hnil. destruct a as [|x a]; [done|].
  assert (x ∈ np_unique (x :: a)) as Hx by (rewrite np_unique_elem; by left).
  rewrite Hnil in Hx. by apply elem_of_nil in Hx.
Qed.

(** C6, counterexample. One did is tagged on two RSEs that Rucio
    lists, and a second did is tagged with no RSE recorded for it, the
    array of RSEs being the shorter one. The did without a location is the
    first that the loop visits. The pass does not skip it and go on: the
    selection of its RSEs raises IndexError, nothing is printed, and
    nothing is marked for the did that has two copies. *)
Lemma C6_did_without_location_aborts_the_pass :
  let rucio := rucio_with [("A", 500); ("B", 1000)]%Z in
  let w := tagged [did_7331; did_7331; did_7330] ["A"; "B"] in
  np_unique (tagged_dids (self w)) = [did_7330; did_7331]
  ∧ locations (self w) did_7330 = []
  ∧ locations (self w) did_7331 = ["A"; "B"]
  ∧ find_priority rucio w
    = (Raise IndexError,
       {| self := {| tagged_on_rse := ["A"; "B"];
                     tagged_dids := [did_7331; did_7331; did_7330];
                     to_delete_on_rse := [];
                     to_delete_dids := [];
                     rse_dict := storage_dict rucio |};
          trace := [Enter "find_priority"; Enter "build_rse_storage_dict";
                    RucioListRses; RucioGetAccountUsage "A";
                    RucioGetAccountUsage "B"] |}).
Proof. repeat split; reflexivity. Qed.

(** C6, amended. The code has no error of its own for a did without a
    location. When the two tagged arrays are in step, every did over which
    [find_priority] loops has a location. A tagged did can lack one only
    when the arrays are out of step, and then the pass as a whole ends by
    IndexError, raised by the selection of the RSEs of the first did that
    the loop visits: no did is skipped, nothing is printed, and the arrays
    of the replicas to delete are as they were before the call, for this
    did as for all the others. *)
Theorem C6_did_without_location_raises_IndexError
    (rucio : Rucio) (w : world) (d : string) :
  (length (tagged_dids (self w)) = length (tagged_on_rse (self w)) →
   ∀ d', d' ∈ np_unique (tagged_dids (self w)) →
         locations (self w) d' ≠ [])
  ∧ (d ∈ tagged_dids (self w) →
     locations (self w) d = [] →
     length (tagged_dids (self w)) ≠ length (tagged_on_rse (self w))
     ∧ find_priority rucio w
       = (Raise IndexError,
          {| self := with_rse_dict (self w) (storage_dict rucio);
             trace := trace w ++ priority_events rucio |})
     ∧ to_delete_dids (self (find_priority rucio w).2)
       = to_delete_dids (self w)
     ∧ to_delete_on_rse (self (find_priority rucio w).2)
       = to_delete_on_rse (self w)).
Proof.
  split.
  - intros Hlen d' Hd'. rewrite np_unique_elem in Hd'.
    by apply paired_with_nonempty.
  - intros Hd Hnone.
    assert (length (tagged_dids (self w)) ≠ length (tagged_on_rse (self w)))
      as Hlen.
    { intros Hlen. by apply (paired_with_nonempty d _ _ Hlen Hd). }
    split; [done|].
    assert (find_priority rucio w
            = (Raise IndexError,
               {| self := with_rse_dict (self w) (storage_dict rucio);
                  trace := trace w ++ priority_events rucio |})) as Hrun.
    { rewrite find_priority_run.
      rewrite priority_loop_out_of_step; [done | done |].
      intros Hnil%np_unique_nil_inv. rewrite Hnil in Hd.
      by apply elem_of_nil in Hd. }
    split; [done|]. by rewrite Hrun.
Qed.

Lemma C6_did_without_location_witness :
  length [did_7331; did_7331; did_7330] ≠ length ["A"; "B"]
  ∧ find_priority (rucio_with [("A", 500); ("B", 1000)]%Z)
      (tagged [did_7331; did_7331; did_7330] ["A"; "B"])
    = (Raise IndexError,
       {| self := with_rse_dict
                    (self (tagged [did_7331; did_7331; did_7330] ["A"; "B"]))
                    (storage_dict (rucio_with [("A", 500); ("B", 1000)]%Z));
          trace := priority_events (rucio_with [("A", 500); ("B", 1000)]%Z) |})
  ∧ to_delete_dids
      (self (find_priority (rucio_with [("A", 500); ("B", 1000)]%Z)
               (tagged [did_7331; did_7331; did_7330] ["A"; "B"])).2) = []
  ∧ to_delete_on_rse
      (self (find_priority (rucio_with [("A", 500); ("B", 1000)]%Z)
               (tagged [did_7331; did_7331; did_7330] ["A"; "B"])).2) = [].
Proof.
  apply (proj2 (C6_did_without_location_raises_IndexError
    (rucio_with [("A", 500); ("B", 1000)]%Z)
    (tagged [did_7331; did_7331; did_7330] ["A"; "B"]) did_7330)).
  - by right; right; left.
  - reflexivity.
Defined.

End SelectorClaims.

(** * Further properties of the deletion daemon *)

Section DaemonFacts.
Import Delete.

(** ** build_rse_storage_dict *)

(** X9. The dictionary is rebuilt from nothing: afterwards it holds the
    remaining bytes of exactly the RSEs that Rucio lists, whatever it held
    before; the four arrays are untouched and Rucio is asked once per
    listed RSE, in the order of the list. *)
Theorem build_rse_storage_dict_rebuilds (rucio : Rucio) (w : world) :
  let w' := (build_rse_storage_dict rucio w).2 in
  (build_rse_storage_dict rucio w).1 = Return tt
  ∧ (∀ r, rse_dict (self w') !! r
          = if decide (r ∈ list_rses rucio)
            then Some (bytes_remaining rucio r) else None)
  ∧ dom (rse_dict (self w')) = list_to_set (list_rses rucio)
  ∧ tagged_dids (self w') = tagged_dids (self w)
  ∧ tagged_on_rse (self w') = tagged_on_rse (self w)
  ∧ to_delete_dids (self w') = to_delete_dids (self w)
  ∧ to_delete_on_rse (self w') = to_delete_on_rse (self w)
  ∧ trace w' = trace w
               ++ [Enter "build_rse_storage_dict"; RucioListRses]
               ++ (RucioGetAccountUsage <$> list_rses rucio).
Proof.
  intros w'. subst w'. rewrite build_rse_storage_dict_run. simpl.
  split; [done|]. split; [apply storage_dict_lookup|].
  split; [|done].
  apply set_eq. intros r. rewrite elem_of_dom, storage_dict_lookup.
  rewrite elem_of_list_to_set. case_decide; split; intros H'; try done.
Qed.


(** ** find_priority *)

Lemma mark_rest_shape s d dids rses :
  mark_rest s d = Return (dids, rses) →
  dids = replicate (length rses) d.
Proof.
  unfold mark_rest. rewrite !result_bind_run.
  destruct (mask_select _ _) as [all|]; [|done].
  rewrite result_bind_run.
  destruct (max_rse_of _ _) as [max_rse|]; [|done].
  by intros [= <- <-].
Qed.

Lemma priority_loop_shape s ds : ∀ acc_dids acc_rses dids rses,
  priority_loop s ds acc_dids acc_rses = Return (dids, rses) →
  length acc_dids = length acc_rses →
  length dids = length rses
  ∧ ∀ d, d ∈ dids → d ∈ acc_dids ∨ d ∈ ds.
Proof.
  induction ds as [|d0 ds IH]; intros acc_dids acc_rses dids rses Hrun Hacc.
  { injection Hrun as <- <-. split; [done|]. auto. }
  cbn [priority_loop] in Hrun. rewrite result_bind_run in Hrun.
  destruct (mark_rest s d0) as [[dids0 rses0]|] eqn:Hmark; [|done].
  apply mark_rest_shape in Hmark as ->.
  apply IH in Hrun as [Hlen Hin].
  2: { rewrite !length_app, length_replicate. lia. }
  split; [done|]. intros d Hd.
  destruct (Hin d Hd) as [Hd'|Hd']; [|right; by right].
  apply elem_of_app in Hd' as [?|Hd']; [by left|].
  apply elem_of_replicate in Hd' as [-> _]. right. by left.
Qed.

Lemma max_rse_of_elem rse_dict rses max_rse :
  max_rse_of rse_dict rses = Return max_rse → max_rse ∈ rses.
Proof.
  unfold max_rse_of. rewrite result_bind_run.
  destruct (remaining_storage _ _); [|done]. rewrite result_bind_run.
  destruct (np_argmax _) as [i|]; [|done]. unfold Py.index.
  destruct (rses !! i) as [r|] eqn:Hi; [|done].
  intros [= <-]. apply list_elem_of_lookup. by exists i.
Qed.

(** What a completed pass has done, with or without a hypothesis on the
    capacities. *)
Lemma find_priority_completed rucio w w' :
  find_priority rucio w = (Return tt, w') →
  let s := with_rse_dict (self w) (storage_dict rucio) in
  (tagged_dids (self w) = []
   ∨ length (tagged_dids (self w)) = length (tagged_on_rse (self w)))
  ∧ tagged_dids (self w') = tagged_dids (self w)
  ∧ tagged_on_rse (self w') = tagged_on_rse (self w)
  ∧ rse_dict (self w') = storage_dict rucio
  ∧ trace w' = trace w ++ priority_events rucio
  ∧ priority_loop s (np_unique (tagged_dids (self w))) [] []
    = Return (to_delete_dids (self w'), to_delete_on_rse (self w'))
  ∧ ∀ d, marked (self w') d
         = if decide (d ∈ tagged_dids (self w)) then rest_of s d else [].
Proof.
  rewrite find_priority_run. intros Hrun s.
  destruct (priority_loop _ _ [] []) as [[dids rses]|e] eqn:Hloop; [|done].
  injection Hrun as <-. simpl.
  assert (tagged_dids (self w) = []
          ∨ length (tagged_dids (self w)) = length (tagged_on_rse (self w)))
    as Hstep.
  { destruct (decide (length (tagged_dids (self w))
                      = length (tagged_on_rse (self w)))) as [?|Hne]; [by right|].
    left. apply np_unique_nil_inv.
    destruct (np_unique (tagged_dids (self w))) as [|d ds] eqn:Hu; [done|].
    rewrite (priority_loop_out_of_step _ (d :: ds)) in Hloop; done. }
  repeat (split; [done|]).
  destruct Hstep as [Hnil|Hlen].
  - intros d. rewrite Hnil in *. rewrite decide_False by apply not_elem_of_nil.
    unfold marked. simpl. vm_compute np_unique in Hloop.
    by injection Hloop as <- <-.
  - destruct (priority_loop_returns
                (with_rse_dict (self w) (storage_dict rucio))
                (np_unique (tagged_dids (self w))) [] [])
      as (dids' & rses' & Hrun' & Hspec); try done.
    { apply np_unique_NoDup. }
    { intros d Hd. by eapply priority_loop_visits. }
    rewrite Hloop in Hrun'. injection Hrun' as <- <-.
    intros d. unfold marked. simpl. rewrite Hspec. simpl.
    destruct (decide (d ∈ tagged_dids (self w))) as [Hd|Hd].
    + rewrite decide_True; [done | by rewrite np_unique_elem].
    + rewrite decide_False; [done | by rewrite np_unique_elem].
Qed.


(** Capacities of the examples fit a float64 as they are. *)
Lemma usage_below_2_53 (usage : list (string * Z)) :
  Forall (fun p => (Z.abs p.2 < 2 ^ 53)%Z) usage →
  ∀ r, (Z.abs (bytes_remaining (rucio_with usage) r) < 2 ^ 53)%Z.
Proof.
  intros Hall r. simpl.
  destruct (list_find _ usage) as [[i p]|] eqn:Hfind; [|done].
  apply list_find_Some in Hfind as (Hi & _ & _).
  rewrite Forall_forall in Hall. apply Hall.
  apply list_elem_of_lookup. by exists i.
Qed.

(** X1. When the two tagged arrays are in step and every tagged RSE is
    listed by Rucio with a capacity that fits a float64, [find_priority]
    completes and leaves the tagged arrays as they are; for every tagged
    did it keeps the first of its RSEs whose float64 capacity is greatest
    and marks all its other RSEs. *)
Theorem selector_keeps_first_float64_maximum (rucio : Rucio) (w : world) :
  length (tagged_dids (self w)) = length (tagged_on_rse (self w)) →
  (∀ r, r ∈ tagged_on_rse (self w) →
     r ∈ list_rses rucio ∧ storable (bytes_remaining rucio r)) →
  ∃ w', find_priority rucio w = (Return tt, w')
    ∧ tagged_dids (self w') = tagged_dids (self w)
    ∧ tagged_on_rse (self w') = tagged_on_rse (self w)
    ∧ ∀ d, d ∈ tagged_dids (self w) →
        ∃ i max_rse top,
          locations (self w) d !! i = Some max_rse
          ∧ marked (self w') d
            = filter (fun rse => rse ≠ max_rse) (locations (self w) d)
          ∧ float64_of_int (bytes_remaining rucio max_rse) = Return top
          ∧ (∀ r v, r ∈ locations (self w) d →
               float64_of_int (bytes_remaining rucio r) = Return v →
               (v ≤ top)%Z)
          ∧ (∀ j r v, j < i → locations (self w) d !! j = Some r →
               float64_of_int (bytes_remaining rucio r) = Return v →
               (v < top)%Z).
Proof. apply find_priority_keeps_first_maximum. Qed.

Lemma selector_keeps_first_float64_maximum_witness :
  ∃ w', find_priority (rucio_with [("A", 500); ("B", 1000); ("C", 1000)]%Z)
          (tagged [did_7330; did_7331; did_7330] ["A"; "C"; "B"])
        = (Return tt, w')
    ∧ to_delete_dids (self w') = [did_7330]
    ∧ to_delete_on_rse (self w') = ["A"].
Proof.
  destruct (selector_keeps_first_float64_maximum
              (rucio_with [("A", 500); ("B", 1000); ("C", 1000)]%Z)
              (tagged [did_7330; did_7331; did_7330] ["A"; "C"; "B"]))
    as (w' & Hrun & _).
  - reflexivity.
  - intros r Hr. split.
    + simpl in *. rewrite !elem_of_cons in *. tauto.
    + apply exact_storable, float64_of_small, usage_below_2_53.
      repeat constructor.
  - exists w'. split; [exact Hrun|].
    vm_compute in Hrun. injection Hrun as <-. split; reflexivity.
Defined.

(** X2. The same pass when the capacities of the RSEs of a did are
    below 2^53 in magnitude: the kept RSE is the first one of greatest
    capacity; when these capacities are pairwise distinct, every marked
    RSE has strictly less room than the kept one, and the kept RSE with
    the marked ones are the RSEs of the did, so that all but one are
    marked. *)
Theorem selector_on_capacities_below_2_53 (rucio : Rucio) (w : world)
    (d : string) :
  length (tagged_dids (self w)) = length (tagged_on_rse (self w)) →
  (∀ r, r ∈ tagged_on_rse (self w) →
     r ∈ list_rses rucio ∧ (Z.abs (bytes_remaining rucio r) < 2 ^ 53)%Z) →
  d ∈ tagged_dids (self w) →
  ∃ w' i max_rse,
    find_priority rucio w = (Return tt, w')
    ∧ locations (self w) d !! i = Some max_rse
    ∧ marked (self w') d
      = filter (fun rse => rse ≠ max_rse) (locations (self w) d)
    ∧ (∀ r, r ∈ locations (self w) d →
         (bytes_remaining rucio r ≤ bytes_remaining rucio max_rse)%Z)
    ∧ (∀ j r, j < i → locations (self w) d !! j = Some r →
         (bytes_remaining rucio r < bytes_remaining rucio max_rse)%Z)
    ∧ (NoDup (bytes_remaining rucio <$> locations (self w) d) →
       max_rse :: marked (self w') d ≡ₚ locations (self w) d
       ∧ length (marked (self w') d) + 1 = length (locations (self w) d)
       ∧ ∀ r, r ∈ marked (self w') d →
           (bytes_remaining rucio r < bytes_remaining rucio max_rse)%Z).
Proof.
  intros Hlen Hall Hd.
  apply find_priority_on_exact_capacities; try done.
  - intros r Hr. destruct (Hall r Hr) as [? ?]. split; [done|].
    by apply exact_storable, float64_of_small.
  - intros r Hr%paired_with_elem. apply float64_of_small. by apply Hall.
Qed.

Lemma selector_on_capacities_below_2_53_witness :
  ∃ w' max_rse,
    find_priority (rucio_with [("A", 500); ("B", 1000); ("C", 700)]%Z)
      (tagged [did_7330; did_7330; did_7330] ["A"; "B"; "C"])
    = (Return tt, w')
    ∧ max_rse :: marked (self w') did_7330 ≡ₚ ["A"; "B"; "C"]
    ∧ length (marked (self w') did_7330) + 1 = 3.
Proof.
  destruct (selector_on_capacities_below_2_53
              (rucio_with [("A", 500); ("B", 1000); ("C", 700)]%Z)
              (tagged [did_7330; did_7330; did_7330] ["A"; "B"; "C"])
              did_7330)
    as (w' & i & max_rse & Hrun & _ & _ & _ & _ & Hdistinct).
  - reflexivity.
  - intros r Hr. split.
    + simpl in *. rewrite !elem_of_cons in *. tauto.
    + apply usage_below_2_53. repeat constructor.
  - by left.
  - exists w', max_rse. split; [exact Hrun|].
    destruct Hdistinct as (Hperm & Hlen & _).
    + vm_compute. repeat constructor; rewrite ?elem_of_cons, ?elem_of_nil;
        intros Hin; repeat destruct Hin as [Hin|Hin]; discriminate || done.
    + split; [exact Hperm | exact Hlen].
Defined.


(** X3. A completed pass never marks every copy of a did, and never
    marks a replica that is not tagged: each marked RSE of a did is one
    of its tagged RSEs, and each tagged did has a tagged RSE that is not
    marked. This holds for every daemon and every Rucio, also when an RSE
    is tagged several times for the did. *)
Theorem selector_never_marks_every_copy (rucio : Rucio) (w w' : world) :
  find_priority rucio w = (Return tt, w') →
  (∀ d r, r ∈ marked (self w') d →
     d ∈ tagged_dids (self w) ∧ r ∈ locations (self w) d)
  ∧ (∀ d, d ∈ tagged_dids (self w) →
       ∃ kept, kept ∈ locations (self w) d ∧ kept ∉ marked (self w') d).
Proof.
  intros Hrun.
  destruct (find_priority_completed rucio w w' Hrun)
    as (Hstep & _ & _ & _ & _ & Hloop & Hspec).
  split.
  - intros d r. rewrite Hspec. case_decide as Hd.
    + unfold rest_of. rewrite locations_with_rse_dict.
      destruct (max_rse_of _ _); [|by intros ?%elem_of_nil].
      intros [_ Hr]%list_elem_of_filter. done.
    + by intros ?%elem_of_nil.
  - intros d Hd. destruct Hstep as [Hnil|Hlen].
    { rewrite Hnil in Hd. by apply elem_of_nil in Hd. }
    destruct (priority_loop_visits
                (with_rse_dict (self w) (storage_dict rucio))
                _ _ _ _ _ d Hlen Hloop) as [max_rse Hmax].
    { by rewrite np_unique_elem. }
    exists max_rse. simpl in Hmax. rewrite locations_with_rse_dict in Hmax.
    split; [by eapply max_rse_of_elem|].
    rewrite Hspec, decide_True by done.
    unfold rest_of. simpl. rewrite locations_with_rse_dict, Hmax.
    rewrite list_elem_of_filter. tauto.
Qed.

Lemma selector_never_marks_every_copy_witness :
  ∃ kept, kept ∈ ["A"; "B"; "B"]
          ∧ kept ∉ marked
              (self (find_priority
                       (rucio_with [("A", 500); ("B", 1000)]%Z)
                       (tagged [did_7330; did_7330; did_7330]
                               ["A"; "B"; "B"])).2) did_7330.
Proof.
  apply (proj2 (selector_never_marks_every_copy
    (rucio_with [("A", 500); ("B", 1000)]%Z)
    (tagged [did_7330; did_7330; did_7330] ["A"; "B"; "B"]) _ eq_refl)
    did_7330).
  by left.
Defined.

Lemma filter_none {A} (P : A → Prop) `{!∀ x, Decision (P x)} (l : list A) :
  (∀ x, x ∈ l → ¬ P x) → filter P l = [].
Proof.
  induction l as [|x l IH]; intros Hall; [done|].
  rewrite filter_cons, decide_False by (apply Hall; by left).
  apply IH. intros y Hy. apply Hall. by right.
Qed.

(** X4. A did whose copies are all on one RSE, in particular a did
    with a single copy, has nothing marked. *)
Theorem selector_leaves_single_rse_alone (rucio : Rucio) (w : world)
    (d rse : string) :
  length (tagged_dids (self w)) = length (tagged_on_rse (self w)) →
  (∀ r, r ∈ tagged_on_rse (self w) →
     r ∈ list_rses rucio ∧ storable (bytes_remaining rucio r)) →
  (∀ r, r ∈ locations (self w) d → r = rse) →
  ∃ w', find_priority rucio w = (Return tt, w') ∧ marked (self w') d = [].
Proof.
  intros Hlen Hall Hone.
  destruct (find_priority_keeps_first_maximum rucio w Hlen Hall)
    as (w' & Hrun & _ & _ & Hspec).
  exists w'. split; [done|].
  destruct (decide (d ∈ tagged_dids (self w))) as [Hd|Hd].
  - destruct (Hspec d Hd) as (i & max_rse & top & Hi & -> & _).
    assert (max_rse = rse) as ->.
    { apply Hone, list_elem_of_lookup. by exists i. }
    apply filter_none. intros r Hr Hne. apply Hne. by apply Hone.
  - destruct (find_priority_completed rucio w w' Hrun)
      as (_ & _ & _ & _ & _ & _ & Hm).
    by rewrite Hm, decide_False.
Qed.

Lemma selector_leaves_single_rse_alone_witness :
  ∃ w', find_priority (rucio_with [("A", 500); ("B", 1000)]%Z)
          (tagged [did_7330; did_7331; did_7331] ["A"; "A"; "B"])
        = (Return tt, w')
        ∧ marked (self w') did_7330 = [].
Proof.
  apply (selector_leaves_single_rse_alone
    (rucio_with [("A", 500); ("B", 1000)]%Z)
    (tagged [did_7330; did_7331; did_7331] ["A"; "A"; "B"]) did_7330 "A").
  - reflexivity.
  - intros r Hr. split.
    + simpl in *. rewrite !elem_of_cons in *. tauto.
    + apply exact_storable, float64_of_small, usage_below_2_53.
      repeat constructor.
  - intros r Hr. vm_compute in Hr. by apply list_elem_of_singleton in Hr.
Defined.

(** X5. When the two tagged arrays have different lengths and some did
    is tagged, the boolean mask does not fit the array of RSEs: the pass
    raises IndexError at the first did, after the dictionary has been
    rebuilt, and marks nothing. *)
Theorem selector_out_of_step_raises_IndexError (rucio : Rucio) (w : world) :
  length (tagged_dids (self w)) ≠ length (tagged_on_rse (self w)) →
  tagged_dids (self w) ≠ [] →
  find_priority rucio w
  = (Raise IndexError,
     {| self := with_rse_dict (self w) (storage_dict rucio);
        trace := trace w ++ priority_events rucio |}).
Proof.
  intros Hlen Hne. rewrite find_priority_run.
  rewrite priority_loop_out_of_step; [done | done |].
  intros Hnil. by apply np_unique_nil_inv in Hnil.
Qed.

Lemma selector_out_of_step_witness :
  (find_priority (rucio_with [("A", 500); ("B", 1000)]%Z)
     (tagged [did_7330; did_7330] ["A"])).1 = Raise IndexError.
Proof.
  rewrite (selector_out_of_step_raises_IndexError
             (rucio_with [("A", 500); ("B", 1000)]%Z)
             (tagged [did_7330; did_7330] ["A"])).
  - reflexivity.
  - simpl. lia.
  - discriminate.
Defined.


(** ** The deletion loop of do_task *)

Lemma do_task_single_copy collection rucio RAW_DTYPES raw_type_only exclude_rses :
  do_task collection rucio RAW_DTYPES "single_copy" raw_type_only exclude_rses
  = (_ ← emit (Stdout "Going to delete rawtype data with single_copy tags." []);
     _ ← find_single_copy collection RAW_DTYPES raw_type_only exclude_rses;
     _ ← find_priority rucio;
     deletion_loop rucio).
Proof. reflexivity. Qed.

Lemma int_of_quotient_raises n e :
  int_of_quotient_by_1024 n = Raise e → e = OverflowError.
Proof.
  unfold int_of_quotient_by_1024.
  destruct (Z.abs n <? 2 ^ 53)%Z; [done|].
  destruct (2 ^ 1034 <=? _)%Z; [|done]. by intros [= <-].
Qed.

Lemma int_of_quotient_small n :
  (Z.abs n < 2 ^ 53)%Z → int_of_quotient_by_1024 n = Return (n ÷ 1024)%Z.
Proof.
  intros Hn. unfold int_of_quotient_by_1024.
  by rewrite (proj2 (Z.ltb_lt _ _) Hn).
Qed.

(** Above 2^53 the division rounds before it truncates, and from
    2^1034 - 2^980 on it overflows. *)
Example quotient_rounds_above_2_53 :
  int_of_quotient_by_1024 (2 ^ 53 + 1023) = Return 8796093022209%Z
  ∧ ((2 ^ 53 + 1023) ÷ 1024 = 8796093022208)%Z.
Proof. split; reflexivity. Qed.

Example quotient_overflows :
  int_of_quotient_by_1024 (2 ^ 1034) = Raise OverflowError
  ∧ int_of_quotient_by_1024 (2 ^ 1034 - 2 ^ 980) = Raise OverflowError
  ∧ int_of_quotient_by_1024 (2 ^ 1034 - 2 ^ 980 - 1)
    = Return (2 ^ 1024 - 2 ^ 971)%Z
  ∧ int_of_quotient_by_1024 (-2047) = Return (-1)%Z.
Proof. vm_compute. repeat split; reflexivity. Qed.

Lemma deleted_app t1 t2 : deleted (t1 ++ t2) = deleted t1 ++ deleted t2.
Proof. unfold deleted. apply omap_app. Qed.

Lemma deleted_deletion_events rucio p :
  deleted (deletion_events rucio p)
  = match size_gb rucio p.1 with Return _ => [p] | Raise _ => [] end.
Proof.
  unfold deletion_events. destruct p as [d r].
  by destruct (size_gb rucio _).
Qed.

Lemma delete_one_run rucio i w :
  delete_one rucio i w
  = match to_delete_dids (self w) !! i, to_delete_on_rse (self w) !! i with
    | Some d, Some rse =>
        (match size_gb rucio d with
         | Return _ => Return tt
         | Raise e => Raise e
         end,
         {| self := self w;
            trace := trace w ++ deletion_events rucio (d, rse) |})
    | _, _ => (Raise IndexError, w)
    end.
Proof.
  unfold delete_one, Py.index, lift. rewrite bind_run. simpl.
  destruct (to_delete_dids (self w) !! i) as [d|];
    rewrite bind_run; simpl; [|done].
  destruct (to_delete_on_rse (self w) !! i) as [rse|];
    rewrite bind_run; simpl; [|done].
  rewrite bind_run. simpl. unfold deletion_events, size_gb. simpl.
  destruct (int_of_quotient_by_1024 _) as [gb|e]; [|done].
  repeat (rewrite bind_run; simpl). unfold emit. simpl.
  by rewrite <- !app_assoc.
Qed.

(** The loop over the indices does what the recursion on the two arrays
    says. *)
Lemma deletion_steps rucio n : ∀ k w,
  k + n = length (to_delete_dids (self w)) →
  for_each (seq k n) (delete_one rucio) w
  = ((deletion_outcome rucio (drop k (to_delete_dids (self w)))
        (drop k (to_delete_on_rse (self w)))).1,
     {| self := self w;
        trace := trace w
                 ++ (deletion_outcome rucio
                       (drop k (to_delete_dids (self w)))
                       (drop k (to_delete_on_rse (self w)))).2 |}).
Proof.
  induction n as [|n IH]; intros k w Hk.
  { cbn [seq for_each].
    rewrite (drop_ge (to_delete_dids (self w))) by lia.
    destruct w as [s t]. simpl. by rewrite app_nil_r. }
  cbn [seq for_each]. rewrite bind_run, delete_one_run.
  destruct (lookup_lt_is_Some_2 (to_delete_dids (self w)) k) as [d Hd]; [lia|].
  rewrite Hd, (drop_S _ _ _ Hd).
  destruct (to_delete_on_rse (self w) !! k) as [rse|] eqn:Hr.
  - rewrite (drop_S _ _ _ Hr). cbn [deletion_outcome].
    destruct (size_gb rucio d) as [gb|e] eqn:Hgb.
    + rewrite IH by (simpl; lia). cbn [self trace].
      destruct (deletion_outcome rucio _ _) as [res evs]. simpl.
      by rewrite <- !app_assoc.
    + done.
  - apply lookup_ge_None in Hr.
    rewrite (drop_ge (to_delete_on_rse (self w))) by done.
    destruct w as [s t]. simpl. by rewrite app_nil_r.
Qed.

Lemma deletion_loop_run rucio w :
  deletion_loop rucio w
  = ((deletion_outcome rucio (to_delete_dids (self w))
        (to_delete_on_rse (self w))).1,
     {| self := self w;
        trace := trace w
                 ++ (deletion_outcome rucio (to_delete_dids (self w))
                       (to_delete_on_rse (self w))).2 |}).
Proof.
  unfold deletion_loop. rewrite bind_run. simpl.
  by rewrite deletion_steps.
Qed.

(** How the recursion on the arrays ends, and which replicas it has
    deleted by then. *)
Lemma deletion_outcome_spec rucio dids : ∀ rses,
  let res := (deletion_outcome rucio dids rses).1 in
  let evs := (deletion_outcome rucio dids rses).2 in
  deleted evs `prefix_of` zip dids rses
  ∧ (res = Return tt
     ↔ length dids ≤ length rses ∧ ∀ d, d ∈ dids → fits rucio d)
  ∧ (res = Return tt → deleted evs = zip dids rses)
  ∧ (res = Raise IndexError → length rses < length dids)
  ∧ (∀ e, res = Raise e → e = IndexError ∨ e = OverflowError).
Proof.
  induction dids as [|d dids IH]; intros rses; cbn zeta.
  { simpl. split; [by exists []|]. split.
    - split; [intros _; split; [lia|] | done].
      intros d Hd. by apply elem_of_nil in Hd.
    - done. }
  destruct rses as [|rse rses].
  { simpl. split; [by exists []|]. split.
    - split; [done|]. intros [Hlen _]. simpl in Hlen. lia.
    - split; [done|]. split; [simpl; lia|]. intros e [= <-]. by left. }
  cbn [deletion_outcome].
  destruct (size_gb rucio d) as [gb|e0] eqn:Hgb.
  - specialize (IH rses). cbn zeta in IH.
    destruct (deletion_outcome rucio dids rses) as [res evs].
    cbn [fst snd] in *.
    destruct IH as (Hpre & Hiff & Hret & Hidx & Herr).
    rewrite deleted_app, deleted_deletion_events. cbn [fst]. rewrite Hgb.
    cbn [zip zip_with app length].
    split; [by apply prefix_cons|]. split.
    + rewrite Hiff. split.
      * intros [Hlen Hall]. split; [lia|].
        intros d' [->|Hd']%elem_of_cons; [by exists gb | by apply Hall].
      * intros [Hlen Hall]. split; [lia|].
        intros d' Hd'. apply Hall. by right.
    + split; [intros Hres; by rewrite (Hret Hres)|].
      split; [intros Hres; apply Hidx in Hres; lia | done].
  - cbn [fst snd]. rewrite deleted_deletion_events. cbn [fst]. rewrite Hgb.
    split; [apply prefix_nil|]. split.
    + split; [done|]. intros [_ Hall].
      destruct (Hall d) as [gb Hfit]; [by left | congruence].
    + split; [done|]. split.
      * intros [= ->]. unfold size_gb in Hgb.
        by apply int_of_quotient_raises in Hgb.
      * intros e [= <-]. right. unfold size_gb in Hgb.
        by apply int_of_quotient_raises in Hgb.
Qed.



Lemma zip_paired_with d r dids rses :
  (d, r) ∈ zip dids rses → r ∈ paired_with d dids rses.
Proof.
  revert rses. induction dids as [|d' dids IH]; intros [|r' rses]; simpl;
    try (intros Hnil; by apply elem_of_nil in Hnil).
  intros [[= -> ->]|Hin]%elem_of_cons.
  - rewrite String.eqb_refl. by left.
  - destruct (String.eqb d d'); [right|]; by apply IH.
Qed.

(** X6. After a completed pass the two arrays of replicas to delete
    have the same length, so the deletion loop that follows never raises
    IndexError: it ends normally when the size of every marked did fits
    the float division of line 122, and has then called [delete_rule] for
    every pair of the arrays. Whether it ends normally or not, every
    replica that it has deleted is a pair of the arrays and was tagged. *)
Theorem completed_pass_feeds_the_deletion_loop (rucio : Rucio)
    (w w' : world) :
  find_priority rucio w = (Return tt, w') →
  length (to_delete_dids (self w')) = length (to_delete_on_rse (self w'))
  ∧ ∃ res evs,
      deletion_loop rucio w'
      = (res, {| self := self w'; trace := trace w' ++ evs |})
      ∧ res ≠ Raise IndexError
      ∧ deleted evs
        `prefix_of` zip (to_delete_dids (self w')) (to_delete_on_rse (self w'))
      ∧ ((∀ d, d ∈ to_delete_dids (self w') → fits rucio d) →
         res = Return tt
         ∧ deleted evs
           = zip (to_delete_dids (self w')) (to_delete_on_rse (self w')))
      ∧ ∀ d r, (d, r) ∈ deleted evs →
          d ∈ tagged_dids (self w) ∧ r ∈ locations (self w) d.
Proof.
  intros Hrun.
  destruct (find_priority_completed rucio w w' Hrun)
    as (_ & _ & _ & _ & _ & Hloop & Hspec).
  apply priority_loop_shape in Hloop as [Hlen _]; [|done].
  split; [done|].
  pose proof (deletion_outcome_spec rucio (to_delete_dids (self w'))
                (to_delete_on_rse (self w')))
    as (Hpre & Hiff & Hret & Hidx & _).
  eexists _, _. split; [apply deletion_loop_run|].
  split; [intros Hres; apply Hidx in Hres; lia|].
  split; [done|]. split.
  { intros Hfit.
    assert ((deletion_outcome rucio (to_delete_dids (self w'))
               (to_delete_on_rse (self w'))).1 = Return tt) as Hres.
    { apply Hiff. split; [lia | done]. }
    split; [done | by apply Hret]. }
  intros d r Hin.
  assert ((d, r) ∈ zip (to_delete_dids (self w')) (to_delete_on_rse (self w')))
    as Hzip.
  { destruct Hpre as [rest ->]. apply elem_of_app. by left. }
  apply zip_paired_with in Hzip.
  fold (marked (self w') d) in Hzip. rewrite Hspec in Hzip.
  case_decide as Hd; [|by apply elem_of_nil in Hzip].
  split; [done|]. unfold rest_of in Hzip.
  rewrite locations_with_rse_dict in Hzip.
  destruct (max_rse_of _ _); [|by apply elem_of_nil in Hzip].
  by apply list_elem_of_filter in Hzip as [_ ?].
Qed.

Lemma completed_pass_witness :
  ∃ res evs,
    deletion_loop (rucio_with [("A", 500); ("B", 1000); ("C", 1000)]%Z)
      (find_priority (rucio_with [("A", 500); ("B", 1000); ("C", 1000)]%Z)
         (tagged [did_7330; did_7330; did_7330] ["A"; "B"; "C"])).2
    = (res,
       {| self := self (find_priority
                          (rucio_with [("A", 500); ("B", 1000); ("C", 1000)]%Z)
                          (tagged [did_7330; did_7330; did_7330]
                                  ["A"; "B"; "C"])).2;
          trace := trace (find_priority
                            (rucio_with [("A", 500); ("B", 1000); ("C", 1000)]%Z)
                            (tagged [did_7330; did_7330; did_7330]
                                    ["A"; "B"; "C"])).2 ++ evs |})
    ∧ res = Return tt
    ∧ deleted evs = [(did_7330, "A"); (did_7330, "C")].
Proof.
  destruct (completed_pass_feeds_the_deletion_loop
              (rucio_with [("A", 500); ("B", 1000); ("C", 1000)]%Z)
              (tagged [did_7330; did_7330; did_7330] ["A"; "B"; "C"])
              _ eq_refl) as (_ & res & evs & Hrun & _ & _ & Hfit & _).
  destruct Hfit as [Hres Hdel].
  { intros d _. eexists. apply int_of_quotient_small. simpl. lia. }
  exists res, evs. split; [exact Hrun|]. split; [exact Hres | exact Hdel].
Defined.

(** ** Running the pass again *)

Lemma priority_loop_ext s s' ds : ∀ acc_dids acc_rses,
  tagged_on_rse s = tagged_on_rse s' →
  tagged_dids s = tagged_dids s' →
  rse_dict s = rse_dict s' →
  priority_loop s ds acc_dids acc_rses = priority_loop s' ds acc_dids acc_rses.
Proof.
  induction ds as [|d ds IH]; intros acc_dids acc_rses Hr Hd Hm; [done|].
  cbn [priority_loop]. unfold mark_rest. rewrite Hr, Hd, Hm.
  rewrite !result_bind_run.
  destruct (mask_select _ _) as [rses|]; [|done].
  rewrite !result_bind_run.
  destruct (max_rse_of _ _) as [max_rse|]; [|done].
  simpl. by apply IH.
Qed.

(** X8. Running [find_priority] again on the daemon that it has left,
    with the same answers from Rucio, ends in the same way and leaves the
    daemon as it was: the pass reads nothing but the tagged arrays and
    Rucio, and changes neither. *)
Theorem find_priority_idempotent (rucio : Rucio) (w : world) :
  let w1 := (find_priority rucio w).2 in
  (find_priority rucio w1).1 = (find_priority rucio w).1
  ∧ self (find_priority rucio w1).2 = self w1.
Proof.
  intros w1. subst w1. rewrite (find_priority_run rucio w).
  destruct (priority_loop (with_rse_dict (self w) (storage_dict rucio))
              (np_unique (tagged_dids (self w))) [] [])
    as [[dids rses]|e] eqn:Hloop; simpl.
  - rewrite find_priority_run. simpl.
    rewrite (priority_loop_ext _ (with_rse_dict (self w) (storage_dict rucio)))
      by done.
    by rewrite Hloop.
  - rewrite find_priority_run. simpl.
    rewrite (priority_loop_ext _ (with_rse_dict (self w) (storage_dict rucio)))
      by done.
    by rewrite Hloop.
Qed.

(** ** The scan, once more *)

Lemma silent_ret {A} (a : A) : silent (mret a : M A).
Proof. by intros w. Qed.

Lemma silent_lift {A} (r : result A) : silent (lift r).
Proof. by intros w. Qed.

Lemma silent_bind {A B} (m : M A) (k : A → M B) :
  silent m → (∀ a, silent (k a)) → silent (m ≫= k).
Proof.
  intros Hm Hk w. rewrite bind_run. specialize (Hm w).
  destruct (m w) as [[a|e] w1]; simpl in Hm; subst w1; [apply Hk | done].
Qed.

Lemma silent_try body : silent body → silent (try_except_pass body).
Proof.
  intros Hb w. unfold try_except_pass. specialize (Hb w).
  by destruct (body w) as [[[]|e] w1].
Qed.

Lemma try_except_pass_returns body w :
  (try_except_pass body w).1 = Return tt.
Proof. unfold try_except_pass. by destruct (body w) as [[[]|e] w1]. Qed.

(** An entry of a run document leaves no mark at all: whatever it holds,
    the body of the inner loop ends normally, and the daemon and the
    trace are as before. *)
Lemma tag_datum_run RAW_DTYPES raw_type_only exclude_rses d w :
  tag_datum RAW_DTYPES raw_type_only exclude_rses d w = (Return tt, w).
Proof.
  assert (silent (tag_datum RAW_DTYPES raw_type_only exclude_rses d)) as Hs.
  { unfold tag_datum, append_tagged.
    destruct (truthy (did d)); [|apply silent_ret].
    apply silent_try.
    repeat first
      [ apply silent_bind; [|intros ?]
      | apply silent_lift
      | apply silent_ret
      | done
      | match goal with |- silent (if ?b then _ else _) => destruct b end ]. }
  rewrite (surjective_pairing (tag_datum _ _ _ d w)).
  f_equal; [|apply Hs].
  unfold tag_datum. destruct (truthy (did d)); [|done].
  apply try_except_pass_returns.
Qed.

Lemma for_each_tag_datum RAW_DTYPES raw_type_only exclude_rses entries w :
  for_each entries (tag_datum RAW_DTYPES raw_type_only exclude_rses) w
  = (Return tt, w).
Proof.
  induction entries as [|d entries IH]; [done|].
  cbn [for_each]. by rewrite bind_run, tag_datum_run.
Qed.

Lemma tag_run_run collection RAW_DTYPES raw_type_only exclude_rses i w :
  tag_run collection RAW_DTYPES raw_type_only exclude_rses i w
  = (match find collection i with
     | Some doc => match data doc with
                   | Some _ => Return tt
                   | None => Raise (KeyError "data")
                   end
     | None => Raise IndexError
     end,
     {| self := self w; trace := trace w ++ [DbFind i] |}).
Proof.
  unfold tag_run. rewrite bind_run. simpl. unfold lift. rewrite bind_run.
  destruct (find collection i) as [doc|]; [|done].
  rewrite bind_run. simpl. destruct (data doc) as [entries|]; [|done].
  simpl. by rewrite for_each_tag_datum.
Qed.

Lemma tagging_steps collection RAW_DTYPES raw_type_only exclude_rses n :
  ∀ k w,
  (for_each (seq k n)
     (tag_run collection RAW_DTYPES raw_type_only exclude_rses) w).1
  = Return tt
  ↔ ∀ i, k ≤ i < k + n → readable collection i.
Proof.
  induction n as [|n IH]; intros k w; cbn [seq for_each].
  { split; [intros _ i Hi; lia | done]. }
  rewrite bind_run, tag_run_run.
  destruct (find collection k) as [doc|] eqn:Hdoc.
  2: { split; [done|]. intros Hall.
       destruct (Hall k) as (doc & entries & Hf & _); [lia|congruence]. }
  destruct (data doc) as [entries|] eqn:Hdata.
  2: { split; [done|]. intros Hall.
       destruct (Hall k) as (doc' & entries & Hf & Hd); [lia|congruence]. }
  rewrite IH. split.
  - intros Hall i Hi. destruct (decide (i = k)) as [->|Hne].
    + by exists doc, entries.
    + apply Hall. lia.
  - intros Hall i Hi. apply Hall. lia.
Qed.

(** X10. The loop of [find_single_copy] completes exactly when each of
    the [n_tagged] run documents exists and has the field [data]; what the
    entries of the documents hold never matters, as everything that an
    entry can raise is swallowed. *)
Theorem scan_completes_iff_documents_readable
    (collection : Collection) (RAW_DTYPES : list string)
    (raw_type_only : bool) (exclude_rses : list string)
    (n_tagged : nat) (w : world) :
  (tagging_loop collection RAW_DTYPES raw_type_only exclude_rses n_tagged w).1
  = Return tt
  ↔ ∀ i, i < n_tagged → readable collection i.
Proof.
  unfold tagging_loop. rewrite tagging_steps.
  split; intros Hall i Hi; apply Hall; lia.
Qed.

Lemma scan_completes_witness :
  (tagging_loop tagged_db ["raw_records"] true ["UC_DALI_USERDISK"] 1
     fresh).1 = Return tt.
Proof.
  apply (proj2 (scan_completes_iff_documents_readable tagged_db
    ["raw_records"] true ["UC_DALI_USERDISK"] 1 fresh)).
  intros i Hi. assert (i = 0) as -> by lia.
  eexists _, _. split; reflexivity.
Defined.

(** X11. Whatever the database holds, the daemon that a call of
    [find_single_copy] on a fresh daemon leaves behind has no tagged did:
    a pass of [find_priority] on it completes with both arrays of
    replicas to delete empty, and the deletion loop after it calls
    [delete_rule] for nothing. *)
Theorem nothing_to_delete_after_scan
    (collection : Collection) (rucio : Rucio) (RAW_DTYPES : list string)
    (raw_type_only : bool) (exclude_rses : list string) (t : list event) :
  let w1 := (find_single_copy collection RAW_DTYPES raw_type_only
               exclude_rses {| self := init; trace := t |}).2 in
  ∃ w2, find_priority rucio w1 = (Return tt, w2)
        ∧ to_delete_dids (self w2) = []
        ∧ to_delete_on_rse (self w2) = []
        ∧ deletion_loop rucio w2 = (Return tt, w2).
Proof.
  intros w1.
  destruct (only_scans_find_single_copy collection RAW_DTYPES raw_type_only
              exclude_rses {| self := init; trace := t |}) as (evs & Hw1 & _).
  subst w1. rewrite Hw1. rewrite find_priority_run. cbn [self trace].
  eexists. split; [reflexivity|]. split; [done|]. split; [done|].
  unfold deletion_loop. rewrite bind_run. simpl. done.
Qed.

End DaemonFacts.

(** * Further properties of showrun.py *)

Section AggregatorFacts.
Import Showrun.

(** ** Step 2 *)

Lemma db_scan_bounds did rse_name ds : ∀ entries status entries' status',
  db_scan did rse_name ds entries status = Return (entries', status') →
  (entries ≤ entries' ≤ entries + Z.of_nat (length ds))%Z
  ∧ (status' ≠ status → (entries < entries')%Z).
Proof.
  induction ds as [|d ds IH]; intros entries status entries' status' Hscan;
    simpl in Hscan.
  { injection Hscan as <- <-. split; [simpl; lia | done]. }
  assert (∀ e s, db_scan did rse_name ds e s = Return (entries', status') →
            (e ≤ entries' ≤ e + Z.of_nat (length ds))%Z) as Hle.
  { intros e s He. by apply IH in He as [? _]. }
  rewrite length_cons, Nat2Z.inj_succ.
  destruct (Py.contains "rucio" (d_host d)).
  2: { apply IH in Hscan as [? ?]. split; [lia|done]. }
  destruct (d_did d) as [dd|]; [|done]. simpl in Hscan.
  destruct (String.eqb dd did).
  2: { apply IH in Hscan as [? ?]. split; [lia|done]. }
  destruct (d_location d) as [loc|]; [|done]. simpl in Hscan.
  destruct (Py.contains rse_name loc).
  2: { apply IH in Hscan as [? ?]. split; [lia|done]. }
  apply Hle in Hscan. split; lia.
Qed.

Lemma fill_all_names GetRule Replica list_replicas run did scope dname :
  ∀ names rses,
  fill_all GetRule Replica list_replicas run did scope dname names = Return rses →
  name <$> rses = names.
Proof.
  induction names as [|n names IH]; intros rses; simpl.
  - by intros [= <-].
  - unfold fill. unfold mbind, result_bind, mret, result_ret.
    destruct (db_scan did n (data run) 0 "") as [[entries status]|]; [|done].
    destruct (fill_all _ _ _ _ _ _ _ names) as [rs|] eqn:Hrs; [|done].
    intros [= <-]. simpl. f_equal. by apply IH.
Qed.

Lemma fill_all_elem GetRule Replica list_replicas run did scope dname :
  ∀ names rses rse,
  fill_all GetRule Replica list_replicas run did scope dname names = Return rses →
  rse ∈ rses →
  fill GetRule Replica list_replicas run did scope dname (name rse) = Return rse.
Proof.
  induction names as [|n names IH]; intros rses rse; simpl.
  - intros [= <-] Hin. by apply elem_of_nil in Hin.
  - unfold mbind, result_bind, mret, result_ret.
    destruct (fill _ _ _ _ _ _ _ n) as [r|] eqn:Hfill; [|done].
    destruct (fill_all _ _ _ _ _ _ _ names) as [rs|] eqn:Hrs; [|done].
    intros [= <-] [->|Hin]%elem_of_cons.
    + assert (name r = n) as ->; [|done].
      unfold fill in Hfill. unfold mbind, result_bind in Hfill.
      destruct (db_scan _ _ _ _ _) as [[? ?]|]; [|done].
      by injection Hfill as <-.
    + by eapply IH.
Qed.

(** X12. When Step 2 succeeds it yields one record for each configured
    RSE, in the order of the configuration. In each record the number of
    files in Rucio is not negative and is the length of the list of
    replicas, the rule flag is the answer of Rucio, the number of database
    entries lies between zero and the length of [run['data']], and the
    database status is empty unless some entry has matched. *)
Theorem step2_one_sound_record_per_rse
    (GetRule : string → string → bool) (Replica : Type)
    (list_replicas : string → string → string → list Replica)
    (run : Run) (did scope dname : string) (names : list string)
    (rses : list Rse) :
  fill_all GetRule Replica list_replicas run did scope dname names = Return rses →
  name <$> rses = names
  ∧ ∀ rse, rse ∈ rses →
      RucioExists rse = GetRule did (name rse)
      ∧ RucioNFiles rse
        = Z.of_nat (length (list_replicas scope dname (name rse)))
      ∧ (0 ≤ DBentries rse ≤ Z.of_nat (length (data run)))%Z
      ∧ (DBStatus rse ≠ "" → (1 ≤ DBentries rse)%Z).
Proof.
  intros Hfill. split; [by eapply fill_all_names|].
  intros rse Hin.
  pose proof (fill_all_elem _ _ _ _ _ _ _ _ _ _ Hfill Hin) as Hrse.
  unfold fill in Hrse. unfold mbind, result_bind in Hrse.
  destruct (db_scan did (name rse) (data run) 0 "")
    as [[entries status]|] eqn:Hscan; [|done].
  apply db_scan_bounds in Hscan as [Hle Hst].
  injection Hrse as Hrse. rewrite <- Hrse. simpl.
  split; [done|]. split; [done|]. split; [lia|].
  intros Hne. specialize (Hst Hne). lia.
Qed.


Lemma step2_witness :
  name <$> [ {| name := "LNGS_USERDISK"; DBentries := 0; DBStatus := "";
                RucioExists := false; RucioNFiles := 0 |};
             {| name := "UC_OSG_USERDISK"; DBentries := 1;
                DBStatus := "transferred";
                RucioExists := false; RucioNFiles := 0 |} ]
  = ["LNGS_USERDISK"; "UC_OSG_USERDISK"].
Proof.
  apply (proj1 (step2_one_sound_record_per_rse (fun _ _ => false) unit
    (fun _ _ _ => []) uploaded_run "xnt_007330:raw_records-rfzvpzj4mf"
    "xnt_007330" "raw_records-rfzvpzj4mf"
    ["LNGS_USERDISK"; "UC_OSG_USERDISK"] _ eq_refl)).
Defined.

Lemma db_scan_raises did rse_name ds : ∀ entries status,
  (∃ d, d ∈ ds ∧ rucio_entry_without_did d) →
  ∃ k, db_scan did rse_name ds entries status = Raise (KeyError k)
       ∧ (k = "did" ∨ k = "location").
Proof.
  induction ds as [|d ds IH]; intros entries status (d0 & Hin & Hrucio & Hdid).
  { by apply elem_of_nil in Hin. }
  simpl.
  destruct (Py.contains "rucio" (d_host d)) eqn:Hhost.
  2: { apply IH. exists d0. apply elem_of_cons in Hin as [->|Hin];
         [congruence | done]. }
  destruct (d_did d) as [dd|] eqn:Hdd.
  2: { exists "did". split; [done | by left]. }
  assert (∃ d, d ∈ ds ∧ rucio_entry_without_did d) as Hrest.
  { exists d0. apply elem_of_cons in Hin as [->|Hin]; [congruence | done]. }
  simpl. destruct (String.eqb dd did); [|by apply IH].
  destruct (d_location d) as [loc|].
  2: { exists "location". split; [done | by right]. }
  simpl. destruct (Py.contains rse_name loc); by apply IH.
Qed.

(** With such an entry in [run['data']], a datum with a location and at
    one configured RSE at least, lines 282-324 do not reach Step 3: the
    scan of Step 2 raises KeyError, or the name of the dataset has no
    colon and line 282 raises IndexError. *)
Lemma steps_fail_on_rucio_entry_without_did
    (UPLOAD_TO : string) (RSES : list string)
    (make_did : Z → string → string → string)
    (list_did_rules : string → string → list string)
    (GetRule : string → string → bool)
    (Replica : Type) (list_replicas : string → string → string → list Replica)
    (run : Run) (datum : Datum) :
  RSES ≠ [] →
  is_Some (d_location datum) →
  (∃ d, d ∈ data run ∧ rucio_entry_without_did d) →
  ∃ e, showdataset UPLOAD_TO RSES make_did list_did_rules GetRule Replica
         list_replicas run datum = Raise e
       ∧ (e = IndexError ∨ e = KeyError "did" ∨ e = KeyError "location").
Proof.
  intros Hrses [loc Hloc] Hbad. unfold showdataset. rewrite Hloc.
  unfold mbind, result_bind at 1.
  destruct (Py.index_last _) as [hash|e] eqn:Hhash.
  2: { unfold Py.index_last in Hhash. destruct (last _); [done|].
       injection Hhash as <-. eauto. }
  unfold mbind, result_bind at 1.
  destruct (Py.index _ 0) as [scope|e] eqn:Hscope.
  2: { unfold Py.index in Hscope. destruct (_ !! 0); [done|].
       injection Hscope as <-. eauto. }
  unfold mbind, result_bind at 1.
  destruct (Py.index _ 1) as [dname|e] eqn:Hdname.
  2: { unfold Py.index in Hdname. destruct (_ !! 1); [done|].
       injection Hdname as <-. eauto. }
  destruct RSES as [|n names]; [done|]. simpl. unfold fill.
  destruct (db_scan_raises
              (make_did (number run) (d_type datum) hash) n (data run) 0 ""
              Hbad) as (k & -> & Hk).
  exists (KeyError k). split; [done|]. destruct Hk as [->| ->]; auto.
Qed.

(** ** Step 3 *)

(** X14. Once Rucio knows two rules or more for the dataset, the only
    warning that the upload RSE can get is the one that asks to mark the
    datum as transferred; when in addition the status on the event
    builder is empty or transferred, nothing is printed for the upload
    RSE, whatever Rucio and the database hold for it. *)
Theorem upload_branch_silent_with_two_rules
    (UPLOAD_TO did : string) (Nfiles : Z) (ebstatus : string)
    (rses_with_data : list string) (rse : Rse) :
  name rse = UPLOAD_TO →
  2 ≤ length rses_with_data →
  (∀ f, f ∈ analyse UPLOAD_TO did Nfiles ebstatus rses_with_data rse →
        f = UploadWarning CopiesAbroad [AdmixFixSetEbStatus did "transferred"])
  ∧ (eb_settled ebstatus →
     analyse UPLOAD_TO did Nfiles ebstatus rses_with_data rse = []).
Proof.
  intros <- Hlen.
  assert (∀ c, fires Nfiles ebstatus rses_with_data rse c = true →
               c = CopiesAbroad ∧ ¬ eb_settled ebstatus) as Honly.
  { intros c Hc%fires_spec. destruct c; simpl in Hc; destruct_and?;
      try lia. done. }
  split.
  - intros f (c & Hc & ->)%analyse_upload_elem.
    by destruct (Honly c Hc) as [-> _].
  - intros Hset. destruct (analyse _ _ _ _ _ rse) as [|f fs] eqn:Hfs; [done|].
    assert (f ∈ analyse (name rse) did Nfiles ebstatus rses_with_data rse)
      as (c & Hc & _)%analyse_upload_elem by (rewrite Hfs; by left).
    by destruct (Honly c Hc) as [_ ?].
Qed.

Lemma upload_branch_silent_witness :
  analyse "LNGS_USERDISK" "xnt_007330:raw_records-rfzvpzj4mf" 10 "transferred"
    ["LNGS_USERDISK"; "UC_OSG_USERDISK"]
    {| name := "LNGS_USERDISK"; DBentries := 0; DBStatus := "";
       RucioExists := false; RucioNFiles := 0 |} = [].
Proof.
  apply (upload_branch_silent_with_two_rules "LNGS_USERDISK"
    "xnt_007330:raw_records-rfzvpzj4mf" 10 "transferred"
    ["LNGS_USERDISK"; "UC_OSG_USERDISK"]
    {| name := "LNGS_USERDISK"; DBentries := 0; DBStatus := "";
       RucioExists := false; RucioNFiles := 0 |}).
  - reflexivity.
  - simpl. lia.
  - by right.
Defined.








End AggregatorFacts.

Section HeadAndLoopFacts.
Import Showrun ShowrunRest.

(** ** Pieces of strings *)




Lemma contains_tail p c s :
  Py.contains p s = true → Py.contains p (String c s) = true.
Proof. intros Hp. simpl. rewrite Hp. apply orb_true_r. Qed.




(** ** The count of the copies *)





(** ** The loop of showrun *)

Lemma run_loop_status show arg_dtypes arg_compact arg_pending cursor : ∀ eb,
  run_loop show arg_dtypes arg_compact true arg_pending eb cursor = Return [].
Proof.
  induction cursor as [|r cursor IH]; intros eb; [done|].
  cbn [run_loop]. unfold run_body. simpl. by rewrite IH.
Qed.

Lemma run_loop_compact show show' arg_dtypes arg_status arg_pending cursor :
  ∀ eb,
  run_loop show arg_dtypes true arg_status arg_pending eb cursor
  = run_loop show' arg_dtypes true arg_status arg_pending eb cursor
  ∧ ∀ findings,
      run_loop show arg_dtypes true arg_status arg_pending eb cursor
      = Return findings → findings = [].
Proof.
  induction cursor as [|r cursor IH]; intros eb.
  { split; [done|]. by intros ? [= <-]. }
  cbn [run_loop]. unfold run_body. destruct arg_status; simpl.
  - destruct (IH eb) as [-> Hnil]. split; [done|].
    destruct (run_loop show' _ _ _ _ eb cursor) as [fs|]; [|done].
    intros ? [= <-]. by rewrite (Hnil fs).
  - destruct (event_builder eb r) as [eb'|]; simpl; [|done].
    destruct (latest_comment r); simpl; [|done].
    destruct (IH eb') as [-> Hnil]. split; [done|].
    destruct (run_loop show' _ _ _ _ eb' cursor) as [fs|]; [|done].
    intros ? [= <-]. by rewrite (Hnil fs).
Qed.

(** X17. With the status flag no dataset is analysed and nothing is
    raised, whatever the run documents hold; with the compact flag
    [showdataset] is never called either, so the outcome is the same for
    every [showdataset] and a run that ends normally has reported
    nothing. *)
Theorem status_and_compact_analyse_nothing
    (show show' : Run → Datum → result (list Finding))
    (arg_dtypes : list string) (arg_pending : bool)
    (eb : option string) (cursor : list RunDoc) :
  (∀ arg_compact,
     run_loop show arg_dtypes arg_compact true arg_pending eb cursor
     = Return [])
  ∧ (∀ arg_status,
       run_loop show arg_dtypes true arg_status arg_pending eb cursor
       = run_loop show' arg_dtypes true arg_status arg_pending eb cursor
       ∧ ∀ findings,
           run_loop show arg_dtypes true arg_status arg_pending eb cursor
           = Return findings → findings = []).
Proof.
  split.
  - intros arg_compact. apply run_loop_status.
  - intros arg_status. apply run_loop_compact.
Qed.

Lemma datum_loop_unbound show arg_dtypes arg_pending r alldata :
  (∃ datum, datum ∈ alldata ∧ passes_filters arg_dtypes arg_pending datum) →
  datum_loop show arg_dtypes arg_pending None r alldata
  = Raise (NameError "eb").
Proof.
  induction alldata as [|d alldata IH]; intros (datum & Hin & Hpend & Htype).
  { by apply elem_of_nil in Hin. }
  assert (datum ∈ alldata →
          datum_loop show arg_dtypes arg_pending None r alldata
          = Raise (NameError "eb")) as Hrest.
  { intros Hin'. apply IH. by exists datum. }
  cbn [datum_loop]. rewrite mem_settled.
  destruct (arg_pending && bool_decide (eb_settled (ebstatus_of d))) eqn:H1.
  { apply elem_of_cons in Hin as [->|Hin]; [|by apply Hrest].
    apply andb_true_iff in H1 as [-> Hs%bool_decide_eq_true].
    by destruct Hpend. }
  destruct ((0 <? length arg_dtypes)%nat && negb (Py.mem (d_type d) arg_dtypes))
    eqn:H2; [|done].
  apply elem_of_cons in Hin as [->|Hin]; [|by apply Hrest].
  apply andb_true_iff in H2 as [Hlen%Nat.ltb_lt Hmem%negb_true_iff].
  unfold Py.mem in Hmem. apply bool_decide_eq_false in Hmem.
  destruct Hmem. apply Htype. intros ->. simpl in Hlen. lia.
Qed.

(** ** The whole of [showdataset] *)

Lemma count_copies_raises dtype eb hash ds Copies e :
  count_copies dtype eb hash ds Copies = Raise e → e = KeyError "location".
Proof.
  revert Copies. induction ds as [|d ds IH]; intros Copies; simpl; [done|].
  destruct (String.eqb (d_type d) dtype && Py.contains eb (d_host d));
    [|apply IH].
  destruct (d_location d) as [loc|]; simpl.
  - destruct (Py.contains hash loc); apply IH.
  - by intros [= <-].
Qed.

Lemma disk_check_raises on_datamanager files_in same_document r datum
    did eb directory e :
  disk_check on_datamanager files_in same_document r datum did eb directory
  = Raise e →
  e = KeyError "deleted_data".
Proof.
  unfold disk_check. destruct on_datamanager; [|done].
  destruct (contains_document _ _ _); [done|].
  destruct (deleted_data r) as [deleted|]; simpl.
  - by destruct (contains_document _ _ _).
  - by intros [= <-].
Qed.

(** When the whole call returns, lines 282-390 have returned the same
    warnings of Step 3. *)
Lemma showdataset_whole_steps
    (UPLOAD_TO : string) (RSES : list string)
    (make_did : Z → string → string → string)
    (list_did_rules : string → string → list string)
    (GetRule : string → string → bool)
    (Replica : Type) (list_replicas : string → string → string → list Replica)
    (on_datamanager : bool) (files_in : string → string → option nat)
    (same_document : Datum → Datum → bool)
    (r : RunDoc) (datum : Datum) head findings :
  showdataset_whole UPLOAD_TO RSES make_did list_did_rules GetRule Replica
    list_replicas on_datamanager files_in same_document r datum
  = Return (head, findings) →
  showdataset UPLOAD_TO RSES make_did list_did_rules GetRule Replica
    list_replicas (run r) datum = Return findings.
Proof.
  unfold showdataset_whole.
  destruct (d_location datum) as [loc|] eqn:Hloc.
  2: { intros [= <- <-]. unfold showdataset. by rewrite Hloc. }
  destruct (hash_of loc) as [hash|e]; [simpl|done].
  destruct (eb_of (d_host datum)) as [eb|e]; [simpl|done].
  destruct (Py.index_last _) as [directory|e]; [simpl|done].
  destruct (count_copies _ _ _ _ _) as [Copies|e]; [simpl|done].
  destruct (disk_check _ _ _ _ _ _ _ _) as [disk|e]; [simpl|done].
  destruct (showdataset _ _ _ _ _ _ _ _ _) as [fs|e]; [simpl|done].
  by intros [= _ <-].
Qed.

(** X13. One entry of [run['data']] whose host names Rucio and that has
    no did makes the analysis of every dataset of the run fail: for a
    datum with a location and at least one configured RSE, a call of
    [showdataset], taken from its first line to its last, never returns
    normally. It raises KeyError, for [did] or [location] when Step 2
    reads the entry, or before that for [location] in the count of the
    copies (lines 244-246) or for [deleted_data] in the comparison with
    the disks (line 274); or it raises IndexError at line 282, when the
    name of the dataset has no colon. Rucio and the file system are taken
    to answer. *)
Theorem showdataset_fails_on_rucio_entry_without_did
    (UPLOAD_TO : string) (RSES : list string)
    (make_did : Z → string → string → string)
    (list_did_rules : string → string → list string)
    (GetRule : string → string → bool)
    (Replica : Type) (list_replicas : string → string → string → list Replica)
    (on_datamanager : bool) (files_in : string → string → option nat)
    (same_document : Datum → Datum → bool)
    (r : RunDoc) (datum : Datum) :
  RSES ≠ [] →
  is_Some (d_location datum) →
  (∃ d, d ∈ data (run r) ∧ rucio_entry_without_did d) →
  ∃ e, showdataset_whole UPLOAD_TO RSES make_did list_did_rules GetRule
         Replica list_replicas on_datamanager files_in same_document r datum
       = Raise e
       ∧ (e = IndexError ∨ e = KeyError "did" ∨ e = KeyError "location"
          ∨ e = KeyError "deleted_data").
Proof.
  intros Hrses Hloc Hbad.
  destruct (steps_fail_on_rucio_entry_without_did UPLOAD_TO RSES make_did
              list_did_rules GetRule Replica list_replicas (run r) datum
              Hrses Hloc Hbad) as (e0 & Hsteps & He0).
  destruct Hloc as [loc Hloc]. unfold showdataset_whole. rewrite Hloc.
  destruct (hash_of loc) as [hash|e] eqn:Hhash; simpl.
  2: { unfold hash_of, Py.index_last in Hhash. destruct (last _); [done|].
       injection Hhash as <-. eauto. }
  destruct (eb_of (d_host datum)) as [eb|e] eqn:Heb; simpl.
  2: { unfold eb_of, Py.index in Heb. destruct (_ !! 0); [done|].
       injection Heb as <-. eauto. }
  destruct (Py.index_last _) as [directory|e] eqn:Hdir; simpl.
  2: { unfold Py.index_last in Hdir. destruct (last _); [done|].
       injection Hdir as <-. eauto. }
  destruct (count_copies _ _ _ _ _) as [Copies|e] eqn:Hcopies; simpl.
  2: { apply count_copies_raises in Hcopies as ->. eauto 6. }
  destruct (disk_check _ _ _ _ _ _ _ _) as [disk|e] eqn:Hdisk; simpl.
  2: { apply disk_check_raises in Hdisk as ->. eauto 6. }
  rewrite Hsteps. simpl. exists e0. split; [done|].
  destruct He0 as [->|[->| ->]]; auto.
Qed.

Lemma showdataset_fails_witness :
  ∃ e, showdataset_whole "LNGS_USERDISK" ["LNGS_USERDISK"; "UC_OSG_USERDISK"]
         make_did_7330 (fun _ _ => []) (fun _ _ => false) unit
         (fun _ _ _ => []) true (fun _ _ => None) same_fields
         junk_doc waiting_datum = Raise e
       ∧ (e = IndexError ∨ e = KeyError "did" ∨ e = KeyError "location"
          ∨ e = KeyError "deleted_data").
Proof.
  apply (showdataset_fails_on_rucio_entry_without_did "LNGS_USERDISK"
    ["LNGS_USERDISK"; "UC_OSG_USERDISK"] make_did_7330 (fun _ _ => [])
    (fun _ _ => false) unit (fun _ _ _ => []) true (fun _ _ => None)
    same_fields junk_doc waiting_datum).
  - discriminate.
  - by eexists.
  - exists junk_datum. split; [by right; left|]. split; reflexivity.
Defined.

(** On the data manager, a datum of [junk_doc] passes the comparison
    with the disks and stops in Step 2, at the entry without a did. A
    datum that is no entry of [run['data']] stops before that, at line
    274, since the document has no [deleted_data]. *)
Example showdataset_stops_in_step2_or_at_deleted_data :
  showdataset_whole "LNGS_USERDISK" ["LNGS_USERDISK"; "UC_OSG_USERDISK"]
    make_did_7330 (fun _ _ => []) (fun _ _ => false) unit
    (fun _ _ _ => []) true (fun _ _ => None) same_fields
    junk_doc waiting_datum = Raise (KeyError "did")
  ∧ showdataset_whole "LNGS_USERDISK" ["LNGS_USERDISK"; "UC_OSG_USERDISK"]
      make_did_7330 (fun _ _ => []) (fun _ _ => false) unit
      (fun _ _ _ => []) true (fun _ _ => None) same_fields
      junk_doc rucio_datum = Raise (KeyError "deleted_data").
Proof. split; reflexivity. Qed.

(** ** The local variable [eb] *)

Lemma latest_comment_raises r e :
  latest_comment r = Raise e → e = KeyError "user" ∨ e = KeyError "comment".
Proof.
  unfold latest_comment. destruct (comments r) as [cs|]; [|done].
  destruct (last cs) as [c|]; [|done].
  destruct (user c); simpl; [|intros [= <-]; by left].
  destruct (comment c); simpl; [done|intros [= <-]; by right].
Qed.

(** X18. [showrun] binds the local variable [eb] only for a run that
    has the field [bootstrax]. When the first run of the list has none,
    is shown in full, and has a datum that passes the filters of the
    status and of the type, the call never returns normally, whatever
    [showdataset] does and whatever runs follow: when the last comment of
    the run lacks [user] or [comment], line 168 raises KeyError for that
    key; otherwise the test of the host of that datum reads [eb] unbound
    and the call ends by NameError. *)
Theorem first_run_without_bootstrax_raises_NameError
    (show : Run → Datum → result (list Finding))
    (arg_dtypes : list string) (arg_pending : bool)
    (r : RunDoc) (cursor : list RunDoc) :
  bootstrax r = None →
  (∃ datum, datum ∈ alldata_of r
            ∧ passes_filters arg_dtypes arg_pending datum) →
  run_loop show arg_dtypes false false arg_pending None (r :: cursor)
  = match latest_comment r with
    | Return _ => Raise (NameError "eb")
    | Raise e => Raise e
    end
  ∧ ∀ e, latest_comment r = Raise e
         → e = KeyError "user" ∨ e = KeyError "comment".
Proof.
  intros Hboot Hdatum. split; [|apply latest_comment_raises].
  cbn [run_loop]. unfold run_body, event_builder.
  rewrite Hboot. simpl.
  destruct (latest_comment r) as [[]|e]; simpl; [|done].
  fold (alldata_of r). by rewrite datum_loop_unbound.
Qed.

Lemma first_run_without_bootstrax_witness :
  run_loop (fun _ _ => Return []) ["raw_records"] false false true None
    [unprocessed_doc]
  = Raise (NameError "eb")
  ∧ run_loop (fun _ _ => Return []) ["raw_records"] false false true None
      [anonymous_comment_doc]
    = Raise (KeyError "user").
Proof.
  split.
  - apply (first_run_without_bootstrax_raises_NameError (fun _ _ => Return [])
      ["raw_records"] true unprocessed_doc []).
    + reflexivity.
    + exists waiting_datum. split; [by left|]. split.
      * intros _ [Hs|Hs]; discriminate Hs.
      * intros _. by left.
  - apply (first_run_without_bootstrax_raises_NameError (fun _ _ => Return [])
      ["raw_records"] true anonymous_comment_doc []).
    + reflexivity.
    + exists waiting_datum. split; [by left|]. split.
      * intros _ [Hs|Hs]; discriminate Hs.
      * intros _. by left.
Defined.


(** X19. For a run whose event builder is known, the loop over its data
    calls [showdataset] on exactly the data that pass the filter of the
    status (when asked for), the filter of the type (when types are given)
    and whose host contains the name of the event builder, in the order of
    the data, and on no other datum; its outcome is that of these calls in
    turn. *)
Theorem datum_loop_shows_the_selected_data
    (show : Run → Datum → result (list Finding))
    (arg_dtypes : list string) (arg_pending : bool)
    (eb : string) (r : Run) (alldata : list Datum) :
  datum_loop show arg_dtypes arg_pending (Some eb) r alldata
  = show_each show r (filter (selected arg_dtypes arg_pending eb) alldata).
Proof.
  induction alldata as [|d alldata IH]; [done|].
  cbn [datum_loop]. rewrite filter_cons, mem_settled, IH.
  destruct (decide (selected arg_dtypes arg_pending eb d))
    as [(Hpend & Htype & Hhost)|Hno].
  - destruct (arg_pending && bool_decide (eb_settled (ebstatus_of d))) eqn:H1.
    { apply andb_true_iff in H1 as [-> Hs%bool_decide_eq_true].
      by destruct Hpend. }
    destruct ((0 <? length arg_dtypes)%nat
              && negb (Py.mem (d_type d) arg_dtypes)) eqn:H2.
    { apply andb_true_iff in H2 as [Hlen%Nat.ltb_lt Hmem%negb_true_iff].
      unfold Py.mem in Hmem. apply bool_decide_eq_false in Hmem.
      destruct Hmem. apply Htype. intros ->. simpl in Hlen. lia. }
    simpl. by rewrite Hhost.
  - destruct (arg_pending && bool_decide (eb_settled (ebstatus_of d))) eqn:H1;
      [done|].
    destruct ((0 <? length arg_dtypes)%nat
              && negb (Py.mem (d_type d) arg_dtypes)) eqn:H2; [done|].
    simpl. destruct (Py.contains eb (d_host d)) eqn:Hhost; [|done].
    destruct Hno. split; [|split; [|done]].
    + intros -> Hs. simpl in H1. by apply bool_decide_eq_false in H1.
    + intros Hne. apply andb_false_iff in H2 as [Hlen|Hmem].
      * apply Nat.ltb_ge in Hlen. destruct arg_dtypes; [done|simpl in Hlen; lia].
      * apply negb_false_iff in Hmem. unfold Py.mem in Hmem.
        by apply bool_decide_eq_true in Hmem.
Qed.

End HeadAndLoopFacts.
